(** * ssllabs.client: the API session object and its analysis driver

    A shallow embedding of [ssllabs/client.py] (class [Client]) together
    with the library primitives it calls: the URL functions of
    [urllib.parse] (reached through [six.moves]), [str] methods, and the
    part of [requests] the driver relies on.

    The methods [info] and [statusCodes] make one request each and hold
    no state; the development covers the session state and [analyze].

    Conventions.
    - A Python [str] is a [string]: the sequence of its UTF-8 bytes.
    - [int] is [Z]; [str.find] keeps its [-1] for "not found".
    - An operation that may raise returns [exn + A]; [inl e] is "raised e".
    - [urllib.parse] is modelled as in CPython 3.5, the interpreter named
      by the classifiers of [setup.py] (the 2.7 [urlparse] module has the
      same [urlsplit] and [urlunsplit] bodies). *)

From Stdlib Require Import ZArith String Ascii List Lia Bool.
From stdpp Require Import base gmap strings.
Import ListNotations.

Local Open Scope Z_scope.

(** ** [str] methods *)

(** Position of the first [c] in [s], counted from 0. *)
Fixpoint index_of (c : ascii) (s : string) : option nat :=
  match s with
  | EmptyString => None
  | String a s' =>
      if Ascii.eqb a c then Some O
      else match index_of c s' with
           | Some i => Some (S i)
           | None => None
           end
  end.

(** [s[:n]] for [n >= 0]. *)
Fixpoint slice_to (n : nat) (s : string) : string :=
  match n, s with
  | O, _ => EmptyString
  | S _, EmptyString => EmptyString
  | S n', String a s' => String a (slice_to n' s')
  end.

(** [s[n:]] for [n >= 0]. *)
Fixpoint slice_from (n : nat) (s : string) : string :=
  match n, s with
  | O, _ => s
  | S _, EmptyString => EmptyString
  | S n', String _ s' => slice_from n' s'
  end.

(** [s.find(c, start)]: the absolute index, or [-1]. *)
Definition find_from (c : ascii) (start : nat) (s : string) : Z :=
  match index_of c (slice_from start s) with
  | Some i => Z.of_nat (start + i)
  | None => -1
  end.

(** [s.find(c)]. *)
Definition find (c : ascii) (s : string) : Z := find_from c 0 s.

(** [c in s] for a one-character [c]. *)
Definition contains (c : ascii) (s : string) : bool :=
  match index_of c s with Some _ => true | None => false end.

(** [s.split(c, 1)] when [c in s]: the text before the first [c] and the
    text after it.  Without a [c] the single piece is [s] itself. *)
Definition split1 (c : ascii) (s : string) : string * string :=
  match index_of c s with
  | Some i => (slice_to i s, slice_from (S i) s)
  | None => (s, EmptyString)
  end.

(** [s.rstrip(c)] for a one-character argument. *)
Fixpoint rstrip (c : ascii) (s : string) : string :=
  match s with
  | EmptyString => EmptyString
  | String a s' =>
      match rstrip c s' with
      | EmptyString => if Ascii.eqb a c then EmptyString else String a EmptyString
      | t => String a t
      end
  end.

Definition is_upper (a : ascii) : bool :=
  let n := nat_of_ascii a in ((65 <=? n) && (n <=? 90))%nat.

Definition is_digit (a : ascii) : bool :=
  let n := nat_of_ascii a in ((48 <=? n) && (n <=? 57))%nat.

Definition lower_char (a : ascii) : ascii :=
  if is_upper a then ascii_of_nat (nat_of_ascii a + 32) else a.

(** [s.lower()] on the ASCII range, where schemes live. *)
Fixpoint lower (s : string) : string :=
  match s with
  | EmptyString => EmptyString
  | String a s' => String (lower_char a) (lower s')
  end.

(** [all(p(c) for c in s)]. *)
Fixpoint str_all (p : ascii -> bool) (s : string) : bool :=
  match s with
  | EmptyString => true
  | String a s' => p a && str_all p s'
  end.

(** [sep.join(parts)]. *)
Fixpoint join (sep : string) (parts : list string) : string :=
  match parts with
  | [] => EmptyString
  | [p] => p
  | p :: rest => p +:+ sep +:+ join sep rest
  end.

(** [s.replace(a, b)] for one-character [a] and [b]. *)
Fixpoint replace_char (a b : ascii) (s : string) : string :=
  match s with
  | EmptyString => EmptyString
  | String x s' => String (if Ascii.eqb x a then b else x) (replace_char a b s')
  end.

(** ** JSON values, HTTP responses and exceptions *)

#[local] Set Warnings "-register-all".

(** A decoded JSON document.  A [dict] keeps its items in a list with the
    first binding of a key being the one a lookup finds; numbers are
    kept as integers, the client never computes with one. *)
Inductive json : Type :=
| JNull
| JBool (b : bool)
| JNum (n : Z)
| JStr (s : string)
| JArr (items : list json)
| JObj (items : list (string * json)).

(** [requests.Response], restricted to what the client reads: the status
    line and the body ([None] when the body is not a JSON document). *)
Record Response : Type := mkResponse {
  status_code : Z;
  reason : string;
  body : option json
}.

(** The name of an exception class of [ssllabs.errors]. *)
Definition ErrorKind : Type := string.

Inductive exn : Type :=
| ValueError (msg : string)
| KeyError (key : string)
| TypeError
| ConnectionError
| HTTPError (response : Response)
| ResponseError (kind : ErrorKind) (msg : string)
| NoHostError (msg : string).

(** ** [urllib.parse] *)

Record SplitResult : Type := mkSplitResult {
  scheme : string;
  netloc : string;
  path : string;
  query : string;
  fragment : string
}.

Definition scheme_chars : string :=
  "abcdefghijklmnopqrstuvwxyzABCDEFGHIJKLMNOPQRSTUVWXYZ0123456789+-.".

Definition uses_netloc : list string :=
  ["ftp"; "http"; "gopher"; "nntp"; "telnet"; "imap"; "wais"; "file"; "mms";
   "https"; "shttp"; "snews"; "prospero"; "rtsp"; "rtspu"; "rsync"; "";
   "svn"; "svn+ssh"; "sftp"; "nfs"; "git"; "git+ssh"].

(** [_splitnetloc(url, start)]: the authority ends at the earliest of
    ['/'], ['?'] and ['#'] at or after [start]. *)
Definition _splitnetloc (url : string) (start : nat) : string * string :=
  let step (delim : Z) (c : ascii) :=
    let wdelim := find_from c start url in
    if 0 <=? wdelim then Z.min delim wdelim else delim in
  let delim := fold_left step ["/"%char; "?"%char; "#"%char]
                 (Z.of_nat (String.length url)) in
  (slice_to (Z.to_nat delim - start)%nat (slice_from start url),
   slice_from (Z.to_nat delim) url).

(** The lines of [urlsplit] from [if url[:2] == '//'] to the construction
    of the result; the source has them twice, once in the [http] fast
    path and once in the general path. *)
Definition split_after_scheme (scheme url : string) : exn + SplitResult :=
  let located : exn + (string * string) :=
    if String.eqb (slice_to 2 url) "//" then
      let '(netloc, url) := _splitnetloc url 2 in
      if (contains "[" netloc && negb (contains "]" netloc))
         || (contains "]" netloc && negb (contains "[" netloc))
      then inl (ValueError "Invalid IPv6 URL")
      else inr (netloc, url)
    else inr (EmptyString, url) in
  match located with
  | inl e => inl e
  | inr (netloc, url) =>
      let '(url, fragment) :=
        if contains "#" url then split1 "#" url else (url, EmptyString) in
      let '(url, query) :=
        if contains "?" url then split1 "?" url else (url, EmptyString) in
      inr (mkSplitResult scheme netloc url query fragment)
  end.

(** [urlsplit(url)] with the default [scheme=''] and
    [allow_fragments=True]; the result cache is transparent. *)
Definition urlsplit (url : string) : exn + SplitResult :=
  let i := find ":" url in
  if 0 <? i then
    let head := slice_to (Z.to_nat i) url in
    let rest := slice_from (Z.to_nat (i + 1)) url in
    if String.eqb head "http" then
      split_after_scheme (lower head) rest
    else if str_all (fun c => contains c scheme_chars) head then
      if String.eqb rest "" || negb (str_all is_digit rest)
      then split_after_scheme (lower head) rest
      else split_after_scheme "" url
    else split_after_scheme "" url
  else split_after_scheme "" url.

(** [urlunsplit((scheme, netloc, url, query, fragment))]. *)
Definition urlunsplit (scheme netloc url query fragment : string) : string :=
  let url :=
    if negb (String.eqb netloc "")
       || (negb (String.eqb scheme "")
           && existsb (String.eqb scheme) uses_netloc
           && negb (String.eqb (slice_to 2 url) "//"))
    then
      let url :=
        if negb (String.eqb url "") && negb (String.eqb (slice_to 1 url) "/")
        then "/" +:+ url else url in
      "//" +:+ netloc +:+ url
    else url in
  let url := if negb (String.eqb scheme "") then scheme +:+ ":" +:+ url else url in
  let url := if negb (String.eqb query "") then url +:+ "?" +:+ query else url in
  let url := if negb (String.eqb fragment "") then url +:+ "#" +:+ fragment else url in
  url.

(** ['%{:02X}'.format(b)] digit by digit. *)
Definition hex_digit (n : nat) : ascii :=
  if (n <? 10)%nat then ascii_of_nat (48 + n) else ascii_of_nat (55 + n).

Definition always_safe : string :=
  "ABCDEFGHIJKLMNOPQRSTUVWXYZabcdefghijklmnopqrstuvwxyz0123456789_.-".

(** [Quoter(safe)[b]]: a safe byte stands for itself, any other byte
    becomes ['%XX']. *)
Definition quoter (safe : string) (b : ascii) : string :=
  if contains b always_safe || contains b safe then String b EmptyString
  else String "%" (String (hex_digit (nat_of_ascii b / 16))
                    (String (hex_digit (nat_of_ascii b mod 16)) EmptyString)).

(** [quote(string, safe)]: [''.join(quoter(b) for b in bs)]. *)
Fixpoint quote (safe : string) (s : string) : string :=
  match s with
  | EmptyString => EmptyString
  | String b s' => quoter safe b +:+ quote safe s'
  end.

(** [quote_plus(string)] with the default [safe='']. *)
Definition quote_plus (s : string) : string :=
  if negb (contains " " s) then quote "" s
  else replace_char " " "+" (quote " " s).

(** A [dict] with [str] keys and values, in insertion order; no property
    below depends on the order in which a [dict] is iterated. *)
Definition pydict : Type := list (string * string).

(** [d[k] = v]. *)
Fixpoint dict_set (k v : string) (d : pydict) : pydict :=
  match d with
  | [] => [(k, v)]
  | (k', v') :: d' =>
      if String.eqb k' k then (k, v) :: d' else (k', v') :: dict_set k v d'
  end.

(** [d.update(other)]. *)
Definition dict_update (d other : pydict) : pydict :=
  fold_left (fun acc kv => dict_set (fst kv) (snd kv) acc) other d.

(** [urlencode(query)] for a [dict] of strings. *)
Definition urlencode (query : pydict) : string :=
  join "&" (map (fun kv => quote_plus (fst kv) +:+ "=" +:+ quote_plus (snd kv)) query).

(** *** Reading a request URL back

    What the receiving end of a request sees in its URL: the query
    component, and the parameters decoded from it.  These functions are
    not called by the client; they give the statements about request
    parameters their meaning. *)

(** The query component of a URL: what follows the first ['?'], up to a
    ['#'] (RFC 3986, appendix B). *)
Definition url_query (url : string) : string :=
  snd (split1 "?" (fst (split1 "#" url))).

(** [s.split(c)]. *)
Fixpoint split_all (c : ascii) (s : string) : list string :=
  match s with
  | EmptyString => [EmptyString]
  | String a s' =>
      match split_all c s' with
      | [] => []
      | p :: ps => if Ascii.eqb a c then EmptyString :: p :: ps else String a p :: ps
      end
  end.

(** The value of a hexadecimal digit of either case. *)
Definition hex_value (a : ascii) : option nat :=
  let n := nat_of_ascii a in
  if is_digit a then Some (n - 48)%nat
  else if ((65 <=? n) && (n <=? 70))%nat then Some (n - 55)%nat
  else if ((97 <=? n) && (n <=? 102))%nat then Some (n - 87)%nat
  else None.

(** Percent-decoding: ['%XX'] stands for the byte [XX]; a ['%'] that no
    two hexadecimal digits follow stands for itself. *)
Fixpoint unquote (s : string) : string :=
  match s with
  | EmptyString => EmptyString
  | String c tail =>
      if Ascii.eqb c "%" then
        match tail with
        | String a (String b rest) =>
            match hex_value a, hex_value b with
            | Some x, Some y => String (ascii_of_nat (16 * x + y)) (unquote rest)
            | _, _ => String c (unquote tail)
            end
        | _ => String c (unquote tail)
        end
      else String c (unquote tail)
  end.

(** Form decoding ([parse_qsl] with [keep_blank_values=True]): items are
    separated by ['&'], a name ends at the first ['='], ['+'] is a space. *)
Definition parse_qsl (qs : string) : list (string * string) :=
  flat_map
    (fun name_value =>
       if String.eqb name_value "" then []
       else
         let '(name, value) := split1 "=" name_value in
         [(unquote (replace_char "+" " " name),
           unquote (replace_char "+" " " value))])
    (split_all "&" qs).

(** The parameters a request URL carries. *)
Definition request_params (url : string) : list (string * string) :=
  parse_qsl (url_query url).


(** What [quote_plus] makes of one byte, and of a string byte by byte. *)
Definition form_byte (b : ascii) : string :=
  if Ascii.eqb b " " then "+" else quoter "" b.

Fixpoint form_encode (s : string) : string :=
  match s with
  | EmptyString => EmptyString
  | String b s' => form_byte b +:+ form_encode s'
  end.


(** *** Vocabulary for URLs *)

(** [s] is empty or begins with a slash. *)
Definition rooted (s : string) : bool :=
  match s with
  | EmptyString => true
  | String a _ => Ascii.eqb a "/"
  end.

(** The bracket test of [urlsplit] on an authority. *)
Definition unbalanced_brackets (netloc : string) : bool :=
  (contains "[" netloc && negb (contains "]" netloc))
  || (contains "]" netloc && negb (contains "[" netloc)).

(** [c in scheme_chars]. *)
Definition is_scheme_char (a : ascii) : bool := contains a scheme_chars.

(** A base URL in the ordinary sense of the word: an absolute URL with
    an authority, that is, [urlsplit] accepts it and finds both a scheme
    and a network location in it. *)
Definition valid_base_url (value : string) : bool :=
  match urlsplit value with
  | inl _ => false
  | inr parts =>
      negb (String.eqb (scheme parts) "") && negb (String.eqb (netloc parts) "")
  end.

(** ** [requests] *)

(** [Response.raise_for_status()]. *)
Definition raise_for_status (r : Response) : exn + unit :=
  if (400 <=? status_code r) && (status_code r <? 500) then inl (HTTPError r)
  else if (500 <=? status_code r) && (status_code r <? 600) then inl (HTTPError r)
  else inr tt.

(** [Response.json()]. *)
Definition Response_json (r : Response) : exn + json :=
  match body r with
  | Some data => inr data
  | None => inl (ValueError "No JSON object could be decoded")
  end.

(** The network as a scripted transport: the replies still to be served,
    each a response or an exception raised by [requests.get] itself, and
    the URLs requested so far, oldest first. *)
Record Transport : Type := mkTransport {
  script : list (exn + Response);
  requested : list string
}.

(** [requests.get(url)].  A transport with nothing left to serve refuses
    the connection. *)
Definition requests_get (url : string) (t : Transport)
  : (exn + Response) * Transport :=
  match script t with
  | [] => (inl ConnectionError, mkTransport [] (requested t ++ [url]))
  | reply :: rest => (reply, mkTransport rest (requested t ++ [url]))
  end.

(** ** The collaborators of [client.py]

    [ssllabs.host.Host] and [ssllabs.errors.codes] are defined in modules
    of the package other than [client.py]; the client only calls the
    first and looks the second up, so both are parameters here.  [Host]
    wraps the decoded payload without validating it, hence a total
    function; [codes] maps status codes to exception classes, each built
    from one message. *)
Class Imports : Type := mkImports {
  HostT : Type;
  Host : json -> HostT;
  codes : gmap Z ErrorKind
}.

(** ** [class Client] *)

Section Client.
Context `{Imports}.

(** The instance attributes [_Client__scheme], [_Client__netloc],
    [_Client__path] and [_Client__host]; [None] in the last is Python's
    [None]. *)
Record Client : Type := mkClient {
  __scheme : string;
  __netloc : string;
  __path : string;
  __host : option HostT
}.

(** A method body: it runs on [self], returns or raises, and leaves
    [self] in some state. *)
Definition Method (A : Type) : Type := Client -> (exn + A) * Client.

#[local] Instance Method_ret : MRet Method :=
  fun A a self => (inr a, self).

#[local] Instance Method_bind : MBind Method :=
  fun A B k m self =>
    match m self with
    | (inl e, self') => (inl e, self')
    | (inr a, self') => k a self'
    end.

(** [raise e]. *)
Definition raise {A : Type} (e : exn) : Method A :=
  fun self => (inl e, self).

(** A call into a library function that does not touch [self]. *)
Definition call {A : Type} (r : exn + A) : Method A :=
  fun self => (r, self).

(** [self.attr] *)
Definition getattr {A : Type} (attr : Client -> A) : Method A :=
  fun self => (inr (attr self), self).

Definition set_scheme (v : string) (self : Client) : Client :=
  mkClient v (__netloc self) (__path self) (__host self).

Definition set_netloc (v : string) (self : Client) : Client :=
  mkClient (__scheme self) v (__path self) (__host self).

Definition set_path (v : string) (self : Client) : Client :=
  mkClient (__scheme self) (__netloc self) v (__host self).

Definition set_host (v : option HostT) (self : Client) : Client :=
  mkClient (__scheme self) (__netloc self) (__path self) v.

(** [self.attr = v] *)
Definition setattr (update : Client -> Client) : Method unit :=
  fun self => (inr tt, update self).

(** The [entrypoint] property, getter. *)
Definition entrypoint : Method string :=
  s ← getattr __scheme;
  n ← getattr __netloc;
  p ← getattr __path;
  mret (urlunsplit s n p "" "").

(** The [entrypoint] property, setter. *)
Definition entrypoint_setter (value : string) : Method unit :=
  parts ← call (urlsplit value);
  _ ← setattr (set_scheme (scheme parts));
  _ ← setattr (set_netloc (netloc parts));
  setattr (set_path (rstrip "/" (path parts))).

(** The object [__init__] receives: no attribute is set yet. *)
Definition blank : Client := mkClient "" "" "" None.

(** [Client.__init__(self, entrypoint)]. *)
Definition __init__ (entrypoint : string) : Method unit :=
  _ ← entrypoint_setter entrypoint;
  setattr (set_host None).

Definition default_entrypoint : string := "https://api.ssllabs.com/api/v2".

(** [Client(entrypoint)]: the constructed object, or the exception that
    escaped [__init__]. *)
Definition new_Client (entrypoint : string) : exn + Client :=
  match __init__ entrypoint blank with
  | (inl e, _) => inl e
  | (inr _, self) => inr self
  end.

(** The [host] property. *)
Definition host : Method HostT :=
  h ← getattr __host;
  match h with
  | None =>
      raise (NoHostError
        "analyze must be run to completion before the host property may be accessed")
  | Some h => mret h
  end.

(** *** [Client.analyze], a generator *)

(** [dict.__getitem__] on a decoded object with a [str] key. *)
Fixpoint dict_get (key : string) (items : list (string * json)) : exn + json :=
  match items with
  | [] => inl (KeyError key)
  | (k, v) :: rest => if String.eqb k key then inr v else dict_get key rest
  end.

(** [data[key]] for whatever [request.json()] returned. *)
Definition getitem (data : json) (key : string) : exn + json :=
  match data with
  | JObj items => dict_get key items
  | _ => inl TypeError
  end.

(** [v in {'IN_PROGRESS', 'DNS'}]: lists and dicts are unhashable. *)
Definition in_polling_set (v : json) : exn + bool :=
  match v with
  | JStr s => inr (String.eqb s "IN_PROGRESS" || String.eqb s "DNS")
  | JArr _ | JObj _ => inl TypeError
  | _ => inr false
  end.

(** The loop test [data['status'] in {'IN_PROGRESS', 'DNS'}]. *)
Definition still_running (data : json) : exn + bool :=
  match getitem data "status" with
  | inl e => inl e
  | inr v => in_polling_set v
  end.

(** The three statements
    [request = requests.get(url); request.raise_for_status();
     data = request.json()]. *)
Definition fetch (url : string) (t : Transport) : (exn + json) * Transport :=
  let '(reply, t') := requests_get url t in
  match reply with
  | inl e => (inl e, t')
  | inr request =>
      match raise_for_status request with
      | inl e => (inl e, t')
      | inr _ => (Response_json request, t')
      end
  end.

(** The [except requests.HTTPError as e] clause; any other exception
    passes through the [try] statement untouched. *)
Definition handler (e : exn) : exn :=
  match e with
  | HTTPError response =>
      match codes !! status_code response with
      | Some kind => ResponseError kind (reason response)
      | None => e
      end
  | _ => e
  end.

(** The generator object.  Before its first [next] it only holds the
    arguments; suspended at the [yield] it holds the polling URL (the
    other locals are dead there); afterwards it is exhausted. *)
Inductive generator : Type :=
| Created (host : string) (publish ignoreMismatch : bool)
| Suspended (url : string)
| Exhausted.

(** What a call of [next] gives the caller. *)
Inductive signal : Type :=
| Yield (snapshot : HostT)
| StopIteration
| Raise (e : exn).

(** [client.analyze(host, publish, ignoreMismatch)]: no statement of the
    body runs yet. *)
Definition analyze (host : string) (publish ignoreMismatch : bool) : generator :=
  Created host publish ignoreMismatch.

(** The dictionary [query] of lines 123-128. *)
Definition analyze_query (host : string) (publish ignoreMismatch : bool) : pydict :=
  let query := [("host", host); ("all", "done")] in
  let query := if publish then dict_set "publish" "on" query else query in
  let query := if ignoreMismatch then dict_set "ignoreMismatch" "on" query else query in
  query.

(** The dictionary [startnewquery] of lines 130-131. *)
Definition analyze_startnewquery (query : pydict) : pydict :=
  dict_update [("startNew", "on")] query.

(** The URL of the first request of a run, as line 134 builds it. *)
Definition start_url (self : Client) (host : string)
    (publish ignoreMismatch : bool) : string :=
  urlunsplit (__scheme self) (__netloc self) (join "/" [__path self; "analyze"])
    (urlencode (analyze_startnewquery (analyze_query host publish ignoreMismatch)))
    "".

(** The URL of every later request of the run, as line 139 builds it. *)
Definition poll_url (self : Client) (host : string)
    (publish ignoreMismatch : bool) : string :=
  urlunsplit (__scheme self) (__netloc self) (join "/" [__path self; "analyze"])
    (urlencode (analyze_query host publish ignoreMismatch)) "".

(** From the loop test on: with [data] just fetched, either suspend at
    the [yield] or store the result and finish. *)
Definition continue (url : string) (fetched : (exn + json) * Transport)
    (self : Client) : signal * generator * Client * Transport :=
  let '(r, t) := fetched in
  match r with
  | inl e => (Raise (handler e), Exhausted, self, t)
  | inr data =>
      match still_running data with
      | inl e => (Raise (handler e), Exhausted, self, t)
      | inr true => (Yield (Host data), Suspended url, self, t)
      | inr false =>
          (StopIteration, Exhausted, set_host (Some (Host data)) self, t)
      end
  end.

(** [next(g)]: run the body up to the next [yield], [return] or
    exception. *)
Definition next (g : generator) (self : Client) (t : Transport)
  : signal * generator * Client * Transport :=
  match g with
  | Created host publish ignoreMismatch =>
      continue (poll_url self host publish ignoreMismatch)
        (fetch (start_url self host publish ignoreMismatch) t) self
  | Suspended url => continue url (fetch url t) self
  | Exhausted => (StopIteration, Exhausted, self, t)
  end.

(** The caller's [for data in g: ...] with an empty body, for at most
    [fuel] calls of [next]: the snapshots yielded, how the loop ended
    ([None]: it has not ended yet), and the final states. *)
Fixpoint iterate (fuel : nat) (g : generator) (self : Client) (t : Transport)
  : list HostT * option signal * generator * Client * Transport :=
  match fuel with
  | O => ([], None, g, self, t)
  | S fuel' =>
      match next g self t with
      | (Yield snapshot, g', self', t') =>
          let '(ys, s, g'', self'', t'') := iterate fuel' g' self' t' in
          (snapshot :: ys, s, g'', self'', t'')
      | (s, g', self', t') => ([], Some s, g', self', t')
      end
  end.

(** [for data in client.analyze(host, publish, ignoreMismatch): pass]
    against a scripted transport: every call of [next] uses up one reply
    or ends the loop, so one call more than there are replies is enough. *)
Definition run (host : string) (publish ignoreMismatch : bool)
    (self : Client) (t : Transport)
  : list HostT * option signal * generator * Client * Transport :=
  iterate (S (length (script t))) (analyze host publish ignoreMismatch) self t.

(** *** Vocabulary for scripted replies *)

(** The response passes [raise_for_status] and its body decodes to
    [data]. *)
Definition delivers (r : Response) (data : json) : Prop :=
  raise_for_status r = inr tt /\ body r = Some data.

(** [data['status']] is the string [s]. *)
Definition has_status (data : json) (s : string) : Prop :=
  getitem data "status" = inr (JStr s).

(** A reply that keeps the driver polling, and the payload it carries. *)
Definition polling (r : Response) (data : json) : Prop :=
  delivers r data /\ still_running data = inr true.

(** A reply on which the request fails: [requests.get] raises, or the
    response does not pass [raise_for_status]. *)
Definition failing (reply : exn + Response) : Prop :=
  match reply with
  | inl _ => True
  | inr r => raise_for_status r <> inr tt
  end.

(** The endpoint attributes are the ones the [entrypoint] setter derives
    from some URL; the setter is the only code that assigns them. *)
Definition configured (self : Client) : Prop :=
  exists value parts,
    urlsplit value = inr parts
    /\ __scheme self = scheme parts
    /\ __netloc self = netloc parts
    /\ __path self = rstrip "/" (path parts).

(** The parameters every request of a run for [host] carries, the two
    optional ones exactly when their flag is set. *)
Definition carries (host : string) (publish ignoreMismatch : bool)
    (params : list (string * string)) : Prop :=
  In ("host", host) params
  /\ In ("all", "done") params
  /\ (In ("publish", "on") params <-> publish = true)
  /\ (In ("ignoreMismatch", "on") params <-> ignoreMismatch = true).

(** The sessions on which no run of [analyze] has reached a terminal
    status yet: a freshly constructed one, and whatever the entrypoint
    property, the [host] property and calls of [next] that did not
    complete a run make of such a session. *)
Inductive unfinished : Client -> Prop :=
| unfinished_new value self :
    new_Client value = inr self -> unfinished self
| unfinished_entrypoint self :
    unfinished self -> unfinished (snd (entrypoint self))
| unfinished_setter value self :
    unfinished self -> unfinished (snd (entrypoint_setter value self))
| unfinished_host self :
    unfinished self -> unfinished (snd (host self))
| unfinished_next g self t s g' self' t' :
    unfinished self ->
    next g self t = (s, g', self', t') -> s <> StopIteration ->
    unfinished self'.

End Client.

(** ** The reference endpoints: [Client.info] and [Client.statusCodes]

    [ssllabs.info.Info] and [ssllabs.statuscodes.StatusCodes] are, like
    [Host], classes of other modules of the package that wrap a decoded
    payload; they are parameters. *)
Class Records : Type := mkRecords {
  InfoT : Type;
  Info : json -> InfoT;
  StatusCodesT : Type;
  StatusCodes : json -> StatusCodesT
}.

Section Reference.
Context `{Imports} `{Records}.

(** [Client.info(self)]: the URL is built from the endpoint attributes,
    then come the same three statements as in [analyze], outside any
    [try]. *)
Definition info (self : Client) (t : Transport) : (exn + InfoT) * Transport :=
  let path := join "/" [__path self; "info"] in
  let url := urlunsplit (__scheme self) (__netloc self) path "" "" in
  let '(fetched, t') := fetch url t in
  match fetched with
  | inl e => (inl e, t')
  | inr data => (inr (Info data), t')
  end.

(** [Client.statusCodes(self)]. *)
Definition statusCodes (self : Client) (t : Transport)
  : (exn + StatusCodesT) * Transport :=
  let path := join "/" [__path self; "getStatusCodes"] in
  let url := urlunsplit (__scheme self) (__netloc self) path "" "" in
  let '(fetched, t') := fetch url t in
  match fetched with
  | inl e => (inl e, t')
  | inr data => (inr (StatusCodes data), t')
  end.

(** The URLs of the next [n] requests a generator makes, as long as it
    is not finished before: a new generator starts the run and then
    polls, a suspended one polls. *)
Definition request_urls (g : generator) (self : Client) (n : nat) : list string :=
  match g with
  | Created host publish ignoreMismatch =>
      match n with
      | O => []
      | S k =>
          start_url self host publish ignoreMismatch
          :: repeat (poll_url self host publish ignoreMismatch) k
      end
  | Suspended url => repeat url n
  | Exhausted => []
  end.

End Reference.

(** ** A sample session, for running the definitions *)

Definition sample_imports : Imports :=
  mkImports json (fun data => data) {[ 429 := "RateLimitError" ]}.

Definition sample_client : Client (H := sample_imports) :=
  mkClient "https" "api.ssllabs.com" "/api/v2" None.

Definition sample_records : Records :=
  mkRecords json (fun data => data) json (fun data => data).

Definition status_payload (s : string) : json := JObj [("status", JStr s)].

Definition ok_response (data : json) : Response := mkResponse 200 "OK" (Some data).

(** The three replies of a short run, and the transport once they have
    been served. *)
Definition sample_script : list (exn + Response) :=
  [inr (ok_response (status_payload "DNS"));
   inr (ok_response (status_payload "IN_PROGRESS"));
   inr (ok_response (status_payload "READY"))].

Definition sample_requests : list string :=
  ["https://api.ssllabs.com/api/v2/analyze?startNew=on&host=www.example.com&all=done&publish=on";
   "https://api.ssllabs.com/api/v2/analyze?host=www.example.com&all=done&publish=on";
   "https://api.ssllabs.com/api/v2/analyze?host=www.example.com&all=done&publish=on"].

(** A session that already holds the result of an earlier run. *)
Definition sample_client_with_result : Client (H := sample_imports) :=
  @mkClient sample_imports "https" "api.ssllabs.com" "/api/v2"
    (Some (status_payload "READY")).

(** * Properties *)

(** ** Strings, URLs and form encoding *)

Lemma append_nil_l (s : string) : EmptyString +:+ s = s.
Proof. reflexivity. Qed.

Lemma append_cons (x : ascii) (a b : string) :
  String x a +:+ b = String x (a +:+ b).
Proof. reflexivity. Qed.

Lemma append_nil_r (s : string) : s +:+ EmptyString = s.
Proof. induction s as [|x s IH]; [reflexivity|]. now rewrite append_cons, IH. Qed.

Lemma append_assoc (a b c : string) : (a +:+ b) +:+ c = a +:+ (b +:+ c).
Proof.
  induction a as [|x a IH]; [reflexivity|]. now rewrite !append_cons, IH.
Qed.

Lemma contains_cons c a s :
  contains c (String a s) = Ascii.eqb a c || contains c s.
Proof.
  unfold contains. cbn. destruct (Ascii.eqb a c); [reflexivity|].
  now destruct (index_of c s).
Qed.

Lemma contains_app c a b :
  contains c (a +:+ b) = contains c a || contains c b.
Proof.
  induction a as [|x a IH]; [reflexivity|].
  now rewrite append_cons, !contains_cons, IH, orb_assoc.
Qed.

Lemma index_of_none c s : contains c s = false <-> index_of c s = None.
Proof. unfold contains. destruct (index_of c s); split; congruence. Qed.

Lemma split1_absent c s : contains c s = false -> split1 c s = (s, EmptyString).
Proof. intros Hc. apply index_of_none in Hc. unfold split1. now rewrite Hc. Qed.

Lemma index_of_app_sep c a b :
  contains c a = false ->
  index_of c (a +:+ String c b) = Some (String.length a).
Proof.
  induction a as [|x a IH].
  - intros _. rewrite append_nil_l. cbn. now rewrite Ascii.eqb_refl.
  - rewrite contains_cons. intros [Hx Ha]%orb_false_elim.
    rewrite append_cons. cbn [index_of String.length]. now rewrite Hx, (IH Ha).
Qed.

Lemma slice_to_app a b : slice_to (String.length a) (a +:+ b) = a.
Proof.
  induction a as [|x a IH]; [now destruct b|].
  rewrite append_cons. cbn. now rewrite IH.
Qed.

Lemma slice_from_app a b : slice_from (String.length a) (a +:+ b) = b.
Proof.
  induction a as [|x a IH]; [reflexivity|]. rewrite append_cons. exact IH.
Qed.

Lemma split1_app_sep c a b :
  contains c a = false -> split1 c (a +:+ String c b) = (a, b).
Proof.
  intros Ha. unfold split1. rewrite (index_of_app_sep _ _ _ Ha), slice_to_app.
  f_equal.
  replace (a +:+ String c b) with ((a +:+ String c EmptyString) +:+ b)
    by now rewrite append_assoc.
  replace (S (String.length a)) with (String.length (a +:+ String c EmptyString)).
  - apply slice_from_app.
  - clear. induction a as [|x a IH]; [reflexivity|].
    rewrite append_cons. cbn. now rewrite IH.
Qed.

Lemma split_all_nonempty c s : split_all c s <> [].
Proof.
  induction s as [|a s IH]; [discriminate|]. cbn.
  destruct (split_all c s); [congruence|]. now destruct (Ascii.eqb a c).
Qed.

Lemma split_all_absent c s : contains c s = false -> split_all c s = [s].
Proof.
  induction s as [|a s IH]; [reflexivity|].
  rewrite contains_cons. intros [Ha Hs]%orb_false_elim.
  cbn. now rewrite (IH Hs), Ha.
Qed.

Lemma split_all_app_sep c a b :
  contains c a = false ->
  split_all c (a +:+ String c b) = a :: split_all c b.
Proof.
  induction a as [|x a IH].
  - intros _. rewrite append_nil_l. cbn. rewrite Ascii.eqb_refl.
    destruct (split_all c b) eqn:E; [|reflexivity].
    now destruct (split_all_nonempty c b).
  - rewrite contains_cons. intros [Hx Ha]%orb_false_elim.
    rewrite append_cons. cbn [split_all]. now rewrite (IH Ha), Hx.
Qed.

Lemma join_cons sep x y xs :
  join sep (x :: y :: xs) = x +:+ sep +:+ join sep (y :: xs).
Proof. reflexivity. Qed.

Lemma split_all_join c xs :
  xs <> [] -> Forall (fun x => contains c x = false) xs ->
  split_all c (join (String c EmptyString) xs) = xs.
Proof.
  induction xs as [|x xs IH]; [congruence|]. intros _ HF.
  inversion HF as [|? ? Hx HF']; subst.
  destruct xs as [|y xs]; [now apply split_all_absent|].
  rewrite join_cons, append_cons, append_nil_l, (split_all_app_sep _ _ _ Hx).
  now rewrite IH.
Qed.

Lemma quote_no_space s :
  contains " " s = false -> quote "" s = form_encode s.
Proof.
  induction s as [|b s IH]; [reflexivity|].
  rewrite contains_cons. intros [Hb Hs]%orb_false_elim.
  cbn [quote form_encode]. unfold form_byte. now rewrite Hb, (IH Hs).
Qed.

Lemma replace_char_app a b s1 s2 :
  replace_char a b (s1 +:+ s2) = replace_char a b s1 +:+ replace_char a b s2.
Proof.
  induction s1 as [|x s1 IH]; [reflexivity|].
  rewrite append_cons. cbn [replace_char]. now rewrite IH, append_cons.
Qed.

Lemma replace_quoter_space b :
  replace_char " " "+" (quoter " " b) = form_byte b.
Proof.
  destruct b as [[] [] [] [] [] [] [] []]; vm_compute; reflexivity.
Qed.

Lemma quote_with_space s :
  replace_char " " "+" (quote " " s) = form_encode s.
Proof.
  induction s as [|b s IH]; [reflexivity|].
  cbn [quote form_encode].
  now rewrite replace_char_app, IH, replace_quoter_space.
Qed.

Lemma quote_plus_form_encode s : quote_plus s = form_encode s.
Proof.
  unfold quote_plus. destruct (contains " " s) eqn:E; cbn.
  - apply quote_with_space.
  - now apply quote_no_space.
Qed.

Lemma form_encode_avoids c s :
  (forall b, contains c (form_byte b) = false) ->
  contains c (form_encode s) = false.
Proof.
  intros Hc. induction s as [|b s IH]; [reflexivity|].
  cbn [form_encode]. now rewrite contains_app, Hc, IH.
Qed.

Lemma form_byte_avoids c :
  c = "&"%char \/ c = "="%char \/ c = "?"%char \/ c = "#"%char ->
  forall b, contains c (form_byte b) = false.
Proof.
  intros [-> | [-> | [-> | ->]]] b;
    destruct b as [[] [] [] [] [] [] [] []]; vm_compute; reflexivity.
Qed.

Lemma unquote_form_byte b r :
  unquote (replace_char "+" " " (form_byte b +:+ r))
  = String b (unquote (replace_char "+" " " r)).
Proof.
  rewrite replace_char_app.
  destruct b as [[] [] [] [] [] [] [] []]; try reflexivity.
Qed.

Lemma unquote_form_encode s :
  unquote (replace_char "+" " " (form_encode s)) = s.
Proof.
  induction s as [|b s IH]; [reflexivity|].
  cbn [form_encode].
  now rewrite <- (append_nil_r (form_encode s)), <- append_assoc,
    append_nil_r, unquote_form_byte, IH.
Qed.

Lemma parse_qsl_urlencode (d : pydict) : parse_qsl (urlencode d) = d.
Proof.
  unfold parse_qsl, urlencode.
  destruct d as [|kv d]; [reflexivity|].
  rewrite split_all_join.
  - generalize (kv :: d). clear. intros d.
    induction d as [|[k v] d IH]; [reflexivity|].
    cbn [map flat_map fst snd]. rewrite IH, !quote_plus_form_encode.
    destruct (String.eqb _ _) eqn:E.
    + apply String.eqb_eq in E. exfalso.
      destruct (form_encode k); discriminate.
    + rewrite append_cons, append_nil_l, split1_app_sep
        by (apply form_encode_avoids, form_byte_avoids; auto).
      now rewrite !unquote_form_encode.
  - discriminate.
  - apply List.Forall_forall. intros x [[k v] [<- _]]%in_map_iff.
    cbn [fst snd]. rewrite !contains_app, !quote_plus_form_encode.
    rewrite !form_encode_avoids by (apply form_byte_avoids; auto).
    reflexivity.
Qed.

Lemma eqb_empty_false s : s <> EmptyString -> String.eqb s "" = false.
Proof. now intros Hs; apply String.eqb_neq. Qed.

Lemma urlunsplit_with_query s n p q :
  q <> EmptyString ->
  urlunsplit s n p q "" = urlunsplit s n p "" "" +:+ "?" +:+ q.
Proof.
  intros Hq. unfold urlunsplit. rewrite (eqb_empty_false q Hq). reflexivity.
Qed.

Lemma urlunsplit_avoids c s n p :
  c <> ":"%char -> c <> "/"%char ->
  contains c s = false -> contains c n = false -> contains c p = false ->
  contains c (urlunsplit s n p "" "") = false.
Proof.
  intros Hc1%Ascii.eqb_neq Hc2%Ascii.eqb_neq Hs Hn Hp. unfold urlunsplit.
  rewrite Ascii.eqb_sym in Hc1. rewrite Ascii.eqb_sym in Hc2.
  cbn [String.eqb negb].
  repeat match goal with
         | |- context [if ?b then _ else _] => destruct b
         end;
    rewrite ?contains_app, ?append_cons, ?append_nil_l, ?contains_cons,
      ?contains_app, ?Hs, ?Hn, ?Hp, ?Hc1, ?Hc2; reflexivity.
Qed.

Lemma url_query_built base q :
  contains "?" base = false -> contains "#" base = false ->
  contains "#" q = false ->
  url_query (base +:+ "?" +:+ q) = q.
Proof.
  intros H1 H2 H3. unfold url_query.
  rewrite (split1_absent "#").
  - cbn [fst]. rewrite append_cons, append_nil_l.
    now rewrite (split1_app_sep _ _ _ H1).
  - rewrite !contains_app, H2, H3. reflexivity.
Qed.

Lemma contains_join c sep xs :
  contains c sep = false ->
  Forall (fun x => contains c x = false) xs ->
  contains c (join sep xs) = false.
Proof.
  intros Hsep. induction 1 as [|x xs Hx HF IH]; [reflexivity|].
  destruct xs as [|y xs]; [exact Hx|].
  now rewrite join_cons, !contains_app, Hx, Hsep, IH.
Qed.

Lemma urlencode_avoids c d :
  c = "?"%char \/ c = "#"%char -> contains c (urlencode d) = false.
Proof.
  intros Hc. unfold urlencode. apply contains_join.
  - now destruct Hc as [-> | ->].
  - apply List.Forall_forall. intros x [[k v] [<- _]]%in_map_iff.
    cbn [fst snd]. rewrite !contains_app, !quote_plus_form_encode.
    rewrite !form_encode_avoids by (apply form_byte_avoids; tauto).
    now destruct Hc as [-> | ->].
Qed.

Lemma urlencode_nonempty kv d : urlencode (kv :: d) <> EmptyString.
Proof.
  unfold urlencode. cbn [map]. destruct (map _ d) as [|y ys].
  - cbn [join]. destruct (quote_plus (fst kv)); discriminate.
  - rewrite join_cons. destruct (quote_plus (fst kv)); discriminate.
Qed.

Lemma contains_slice_to c s : forall k,
  match index_of c s with Some i => (k <= i)%nat | None => True end ->
  contains c (slice_to k s) = false.
Proof.
  induction s as [|a s IH]; intros [|k]; try reflexivity.
  cbn [index_of slice_to]. rewrite contains_cons.
  destruct (Ascii.eqb a c); [lia|]. cbn [orb]. intros Hk. apply IH.
  destruct (index_of c s); [lia|exact I].
Qed.

Lemma contains_slice_to_absent c s k :
  contains c s = false -> contains c (slice_to k s) = false.
Proof.
  intros Hc%index_of_none. apply contains_slice_to. now rewrite Hc.
Qed.

Lemma split1_when_contains c s :
  (if contains c s then split1 c s else (s, EmptyString)) = split1 c s.
Proof.
  destruct (contains c s) eqn:E; [reflexivity|]. now rewrite split1_absent.
Qed.

Lemma split1_fst_avoids c s : contains c (fst (split1 c s)) = false.
Proof.
  unfold split1. destruct (index_of c s) as [i|] eqn:E; cbn [fst].
  - apply contains_slice_to. now rewrite E.
  - now apply index_of_none.
Qed.

Lemma split1_fst_keeps_absent c c' s :
  contains c' s = false -> contains c' (fst (split1 c s)) = false.
Proof.
  intros Hc. unfold split1. destruct (index_of c s); cbn [fst]; [|exact Hc].
  now apply contains_slice_to_absent.
Qed.

Lemma rstrip_keeps_absent c c' s :
  contains c' s = false -> contains c' (rstrip c s) = false.
Proof.
  induction s as [|a s IH]; [reflexivity|].
  rewrite contains_cons. intros [Ha Hs]%orb_false_elim. cbn [rstrip].
  specialize (IH Hs). destruct (rstrip c s) as [|b r].
  - destruct (Ascii.eqb a c); [reflexivity|]. now rewrite contains_cons, Ha.
  - now rewrite contains_cons, Ha, IH.
Qed.

(** What [_splitnetloc] cuts off is free of the three delimiters. *)
Lemma _splitnetloc_netloc_avoids c url start :
  c = "/"%char \/ c = "?"%char \/ c = "#"%char ->
  contains c (fst (_splitnetloc url start)) = false.
Proof.
  intros Hc. unfold _splitnetloc. cbn [fold_left fst].
  apply contains_slice_to.
  set (s := slice_from start url).
  destruct (index_of c s) as [i|] eqn:E; [|exact I].
  assert (Hf : find_from c start url = Z.of_nat (start + i))
    by (unfold find_from; fold s; now rewrite E).
  destruct Hc as [-> | [-> | ->]]; rewrite ?Hf;
    repeat match goal with
           | |- context [0 <=? ?x] => destruct (Z.leb_spec 0 x)
           end; lia.
Qed.

Lemma lower_scheme_avoids c head :
  c = "?"%char \/ c = "#"%char ->
  str_all (fun a => contains a scheme_chars) head = true ->
  contains c (lower head) = false.
Proof.
  intros Hc. induction head as [|a head IH]; [reflexivity|].
  cbn [str_all lower]. intros [Ha Hh]%andb_prop.
  rewrite contains_cons, (IH Hh), orb_false_r.
  clear -Hc Ha. destruct Hc as [-> | ->];
    destruct a as [[] [] [] [] [] [] [] []]; vm_compute in Ha |- *;
    congruence.
Qed.

Lemma split_after_scheme_avoids c sch url parts :
  c = "?"%char \/ c = "#"%char ->
  split_after_scheme sch url = inr parts ->
  scheme parts = sch
  /\ contains c (netloc parts) = false
  /\ contains c (path parts) = false.
Proof.
  intros Hc. unfold split_after_scheme.
  assert (Hpath : forall rest,
    contains c (fst (split1 "?" (fst (split1 "#" rest)))) = false).
  { intros rest. destruct Hc as [-> | ->].
    - apply split1_fst_avoids.
    - apply split1_fst_keeps_absent, split1_fst_avoids. }
  destruct (String.eqb (slice_to 2 url) "//").
  - pose proof (_splitnetloc_netloc_avoids c url 2) as Hn.
    destruct (_splitnetloc url 2) as [nl rest]. cbn [fst] in Hn.
    destruct (_ || _); [discriminate|].
    specialize (Hpath rest).
    rewrite split1_when_contains.
    destruct (split1 "#" rest) as [front frag]. cbn [fst] in Hpath.
    rewrite split1_when_contains.
    destruct (split1 "?" front) as [p q]. cbn [fst] in Hpath.
    intros [= <-]. cbn. split; [reflexivity|]. split; [|exact Hpath].
    apply Hn. tauto.
  - specialize (Hpath url).
    rewrite split1_when_contains.
    destruct (split1 "#" url) as [front frag]. cbn [fst] in Hpath.
    rewrite split1_when_contains.
    destruct (split1 "?" front) as [p q]. cbn [fst] in Hpath.
    intros [= <-]. cbn. split; [reflexivity|]. split; [|exact Hpath].
    reflexivity.
Qed.

Lemma urlsplit_avoids c value parts :
  c = "?"%char \/ c = "#"%char ->
  urlsplit value = inr parts ->
  contains c (scheme parts) = false
  /\ contains c (netloc parts) = false
  /\ contains c (path parts) = false.
Proof.
  intros Hc. unfold urlsplit.
  set (head := slice_to _ value). set (rest := slice_from _ value).
  assert (Hsch : forall sch url,
    contains c sch = false -> split_after_scheme sch url = inr parts ->
    contains c (scheme parts) = false /\ contains c (netloc parts) = false
    /\ contains c (path parts) = false).
  { intros sch url Hs Hsp.
    destruct (split_after_scheme_avoids c sch url parts Hc Hsp) as (-> & ? & ?).
    auto. }
  assert (Hempty : contains c "" = false) by reflexivity.
  destruct (0 <? find ":" value); [|now apply Hsch].
  destruct (String.eqb head "http") eqn:Ehttp.
  - apply String.eqb_eq in Ehttp. rewrite Ehttp. apply Hsch.
    now destruct Hc as [-> | ->].
  - destruct (str_all _ head) eqn:Eall; [|now apply Hsch].
    destruct (_ || _); [|now apply Hsch].
    apply Hsch. now apply lower_scheme_avoids.
Qed.

Lemma rstrip_rooted c s : rooted s = true -> rooted (rstrip c s) = true.
Proof.
  destruct s as [|a s]; [reflexivity|]. cbn [rooted rstrip]. intros Ha.
  destruct (rstrip c s); [now destruct (Ascii.eqb a c)|exact Ha].
Qed.

Lemma slice_to_rooted k s : rooted s = true -> rooted (slice_to k s) = true.
Proof. destruct s, k; cbn; auto. Qed.

Lemma slice_from_add s : forall a b,
  slice_from (a + b) s = slice_from b (slice_from a s).
Proof.
  induction s as [|x s IH]; intros [|a] b; cbn [Nat.add slice_from]; auto.
  now destruct b.
Qed.

Lemma slice_from_index_of c s : forall i,
  index_of c s = Some i -> exists r, slice_from i s = String c r.
Proof.
  induction s as [|x s IH]; intros i; cbn [index_of]; [discriminate|].
  destruct (Ascii.eqb x c) eqn:E.
  - intros [= <-]. apply Ascii.eqb_eq in E. subst. now exists s.
  - destruct (index_of c s) as [j|]; [|discriminate].
    intros [= <-]. cbn [slice_from]. now apply IH.
Qed.

Lemma slice_from_length s : slice_from (String.length s) s = EmptyString.
Proof. induction s as [|x s IH]; [reflexivity|exact IH]. Qed.

(** What [_splitnetloc] leaves is empty or begins with a delimiter. *)
Lemma _splitnetloc_rest url start :
  let rest := snd (_splitnetloc url start) in
  rest = EmptyString
  \/ exists c r, rest = String c r
       /\ (c = "/"%char \/ c = "?"%char \/ c = "#"%char).
Proof.
  unfold _splitnetloc. cbn [fold_left snd].
  set (s := slice_from start url).
  assert (Hfind : forall c, 
    (find_from c start url = -1 /\ index_of c s = None)
    \/ exists i r, find_from c start url = Z.of_nat (start + i)
         /\ slice_from (start + i) url = String c r).
  { intros c. unfold find_from. fold s.
    destruct (index_of c s) as [i|] eqn:E; [right|left; auto].
    destruct (slice_from_index_of c s i E) as [r Hr].
    exists i, r. split; [reflexivity|]. now rewrite slice_from_add. }
  destruct (Hfind "/"%char) as [[H1 _]|(i1 & r1 & H1 & R1)];
  destruct (Hfind "?"%char) as [[H2 _]|(i2 & r2 & H2 & R2)];
  destruct (Hfind "#"%char) as [[H3 _]|(i3 & r3 & H3 & R3)];
  rewrite H1, H2, H3;
  repeat match goal with
         | |- context [0 <=? ?x] => destruct (Z.leb_spec 0 x); try lia
         end;
  repeat match goal with
         | |- context [Z.min ?a ?b] =>
             destruct (Z.min_spec a b) as [[_ ->]|[_ ->]]
         end;
  rewrite ?Nat2Z.id;
  first [ left; apply slice_from_length
        | right; eauto 10 ].
Qed.

Lemma split1_fst_rooted c s :
  rooted s = true -> rooted (fst (split1 c s)) = true.
Proof.
  intros Hs. unfold split1. destruct (index_of c s); cbn [fst]; [|exact Hs].
  now apply slice_to_rooted.
Qed.

Lemma split1_fst_leading c r : fst (split1 c (String c r)) = EmptyString.
Proof. unfold split1. cbn. now rewrite Ascii.eqb_refl. Qed.

Lemma path_after_netloc_rooted rest :
  rest = EmptyString
  \/ (exists c r, rest = String c r
        /\ (c = "/"%char \/ c = "?"%char \/ c = "#"%char)) ->
  rooted (fst (split1 "?" (fst (split1 "#" rest)))) = true.
Proof.
  intros [-> | (c & r & -> & [-> | [-> | ->]])].
  - reflexivity.
  - now do 2 apply split1_fst_rooted.
  - unfold split1 at 2. cbn [index_of Ascii.eqb Bool.eqb].
    destruct (index_of "#" r); cbn [fst slice_to];
      now rewrite split1_fst_leading.
  - now rewrite split1_fst_leading.
Qed.

Lemma split_after_scheme_shape sch url parts :
  split_after_scheme sch url = inr parts ->
  netloc parts <> EmptyString ->
  scheme parts = sch
  /\ (forall c, c = "/"%char \/ c = "?"%char \/ c = "#"%char ->
        contains c (netloc parts) = false)
  /\ unbalanced_brackets (netloc parts) = false
  /\ rooted (path parts) = true
  /\ contains "?" (path parts) = false
  /\ contains "#" (path parts) = false.
Proof.
  unfold split_after_scheme.
  destruct (String.eqb (slice_to 2 url) "//").
  - pose proof (_splitnetloc_netloc_avoids) as Hn.
    specialize (fun c => Hn c url 2%nat).
    pose proof (_splitnetloc_rest url 2) as Hrest. cbn zeta in Hrest.
    destruct (_splitnetloc url 2) as [nl rest]. cbn [fst snd] in Hn, Hrest.
    fold (unbalanced_brackets nl).
    destruct (unbalanced_brackets nl) eqn:Hb; [discriminate|].
    pose proof (path_after_netloc_rooted rest Hrest) as Hroot.
    pose proof (split1_fst_avoids "?" (fst (split1 "#" rest))) as Hq.
    pose proof (split1_fst_keeps_absent "?" "#" _ (split1_fst_avoids "#" rest)) as Hf.
    rewrite split1_when_contains.
    destruct (split1 "#" rest) as [front frag]. cbn [fst] in Hroot, Hq, Hf.
    rewrite split1_when_contains.
    destruct (split1 "?" front) as [p q]. cbn [fst] in Hroot, Hq, Hf.
    intros [= <-] _. cbn. auto 10.
  - rewrite split1_when_contains.
    destruct (split1 "#" url) as [front frag].
    rewrite split1_when_contains.
    destruct (split1 "?" front) as [p q].
    intros [= <-]. cbn. congruence.
Qed.

Lemma index_of_app c a b :
  index_of c (a +:+ b)
  = match index_of c a with
    | Some i => Some i
    | None => match index_of c b with
              | Some j => Some (String.length a + j)%nat
              | None => None
              end
    end.
Proof.
  induction a as [|x a IH]; [rewrite append_nil_l; now destruct (index_of c b)|].
  rewrite append_cons. cbn [index_of String.length]. rewrite IH.
  destruct (Ascii.eqb x c); [reflexivity|].
  destruct (index_of c a); [reflexivity|]. now destruct (index_of c b).
Qed.

Lemma length_append a b :
  String.length (a +:+ b) = (String.length a + String.length b)%nat.
Proof.
  induction a as [|x a IH]; [reflexivity|]. rewrite append_cons. cbn. now rewrite IH.
Qed.

(** Splitting ['//' + netloc + path] gives the two back. *)
Lemma _splitnetloc_built n p :
  (forall c, c = "/"%char \/ c = "?"%char \/ c = "#"%char -> contains c n = false) ->
  rooted p = true -> contains "?" p = false -> contains "#" p = false ->
  _splitnetloc ("//" +:+ n +:+ p) 2 = (n, p).
Proof.
  intros Hn Hroot Hq Hf. unfold _splitnetloc. cbn [fold_left].
  assert (Hfrom : slice_from 2 ("//" +:+ n +:+ p) = n +:+ p) by reflexivity.
  assert (Hlen : String.length ("//" +:+ n +:+ p)
                 = (2 + String.length n + String.length p)%nat).
  { rewrite !append_cons, append_nil_l. cbn [String.length].
    rewrite length_append. lia. }
  assert (Hfind : forall c, c = "?"%char \/ c = "#"%char ->
            find_from c 2 ("//" +:+ n +:+ p) = -1).
  { intros c Hc. unfold find_from. rewrite Hfrom, index_of_app.
    assert (contains c n = false) as ->%index_of_none by (apply Hn; tauto).
    assert (contains c p = false) as ->%index_of_none
      by (destruct Hc as [-> | ->]; assumption).
    reflexivity. }
  rewrite !Hfind by tauto. cbn [Z.leb Z.compare].
  assert (Hslash : Z.to_nat
            (if 0 <=? find_from "/" 2 ("//" +:+ n +:+ p)
             then Z.min (Z.of_nat (String.length ("//" +:+ n +:+ p)))
                    (find_from "/" 2 ("//" +:+ n +:+ p))
             else Z.of_nat (String.length ("//" +:+ n +:+ p)))
          = (2 + String.length n)%nat).
  { unfold find_from. rewrite Hfrom, index_of_app, Hlen.
    assert (contains "/" n = false) as ->%index_of_none by (apply Hn; tauto).
    destruct p as [|a p]; cbn [index_of].
    - cbn. lia.
    - cbn [rooted] in Hroot. rewrite Hroot. cbn [String.length].
      destruct (Z.leb_spec 0 (Z.of_nat (2 + (String.length n + 0)))); lia. }
  rewrite Hslash, Hfrom. f_equal.
  - replace (2 + String.length n - 2)%nat with (String.length n) by lia.
    apply slice_to_app.
  - change (slice_from (2 + String.length n) ("//" +:+ n +:+ p))
      with (slice_from (String.length n) (n +:+ p)).
    apply slice_from_app.
Qed.

Lemma split_after_scheme_built s n p :
  (forall c, c = "/"%char \/ c = "?"%char \/ c = "#"%char -> contains c n = false) ->
  unbalanced_brackets n = false ->
  rooted p = true -> contains "?" p = false -> contains "#" p = false ->
  split_after_scheme s ("//" +:+ n +:+ p) = inr (mkSplitResult s n p "" "").
Proof.
  intros Hn Hb Hroot Hq Hf. unfold split_after_scheme.
  change (slice_to 2 ("//" +:+ n +:+ p)) with "//". cbn [String.eqb Ascii.eqb Bool.eqb].
  rewrite (_splitnetloc_built n p Hn Hroot Hq Hf).
  fold (unbalanced_brackets n). rewrite Hb, Hf, Hq. reflexivity.
Qed.

Lemma lower_char_scheme a :
  is_scheme_char a = true ->
  is_scheme_char (lower_char a) = true
  /\ lower_char (lower_char a) = lower_char a
  /\ Ascii.eqb (lower_char a) ":" = false.
Proof.
  destruct a as [[] [] [] [] [] [] [] []]; vm_compute; intros; try discriminate; auto.
Qed.

Lemma lower_scheme head :
  str_all is_scheme_char head = true ->
  str_all is_scheme_char (lower head) = true
  /\ lower (lower head) = lower head
  /\ contains ":" (lower head) = false.
Proof.
  induction head as [|a head IH]; [auto|].
  cbn [str_all lower]. intros [Ha Hh]%andb_prop.
  destruct (lower_char_scheme a Ha) as (H1 & H2 & H3).
  destruct (IH Hh) as (I1 & I2 & I3).
  now rewrite contains_cons, H1, H2, H3, I1, I2, I3.
Qed.

Lemma urlsplit_scheme value parts :
  urlsplit value = inr parts ->
  exists head url,
    str_all is_scheme_char head = true
    /\ scheme parts = lower head
    /\ split_after_scheme (scheme parts) url = inr parts.
Proof.
  unfold urlsplit.
  set (head := slice_to _ value). set (rest := slice_from _ value).
  assert (Hnone : split_after_scheme "" value = inr parts ->
    exists head url, str_all is_scheme_char head = true
      /\ scheme parts = lower head
      /\ split_after_scheme (scheme parts) url = inr parts).
  { intros Hs. exists EmptyString, value.
    assert (scheme parts = EmptyString) as ->; [|auto].
    revert Hs. unfold split_after_scheme.
    destruct (if String.eqb _ _ then _ else _) as [e|[nl u]]; [discriminate|].
    destruct (if contains "#" u then _ else _) as [u1 fr].
    destruct (if contains "?" u1 then _ else _) as [u2 q].
    now intros [= <-]. }
  assert (Hsome : forall h, str_all is_scheme_char h = true ->
    split_after_scheme (lower h) rest = inr parts ->
    exists head url, str_all is_scheme_char head = true
      /\ scheme parts = lower head
      /\ split_after_scheme (scheme parts) url = inr parts).
  { intros h Hh Hs. exists h, rest.
    assert (scheme parts = lower h) as ->; [|auto].
    revert Hs. unfold split_after_scheme.
    destruct (if String.eqb _ _ then _ else _) as [e|[nl u]]; [discriminate|].
    destruct (if contains "#" u then _ else _) as [u1 fr].
    destruct (if contains "?" u1 then _ else _) as [u2 q].
    now intros [= <-]. }
  destruct (0 <? find ":" value); [|exact Hnone].
  destruct (String.eqb head "http") eqn:Ehttp.
  - apply String.eqb_eq in Ehttp. rewrite Ehttp. now apply Hsome.
  - fold is_scheme_char.
    change (fun c : ascii => contains c scheme_chars) with is_scheme_char.
    destruct (str_all is_scheme_char head) eqn:Eall; [|exact Hnone].
    destruct (_ || _); [|exact Hnone]. now apply Hsome.
Qed.

Lemma urlsplit_built_schemeless n p :
  urlsplit ("//" +:+ n +:+ p) = split_after_scheme "" ("//" +:+ n +:+ p).
Proof.
  unfold urlsplit.
  destruct (find ":" ("//" +:+ n +:+ p)) as [|i|i] eqn:E; try reflexivity.
  cbn [Z.ltb Z.compare].
  destruct (Pos2Nat.is_succ i) as [k Hk].
  change (Z.to_nat (Z.pos i)) with (Pos.to_nat i). rewrite Hk.
  assert (Hhead : exists h, slice_to (S k) ("//" +:+ n +:+ p) = String "/" h)
    by (rewrite !append_cons; cbn [slice_to]; eauto).
  destruct Hhead as [h ->].
  assert (String.eqb (String "/" h) "http" = false) as -> by reflexivity.
  assert (str_all (fun c => contains c scheme_chars) (String "/" h) = false) as ->
    by reflexivity.
  reflexivity.
Qed.

Lemma urlsplit_built_scheme s n p :
  s <> EmptyString ->
  str_all is_scheme_char s = true -> lower s = s -> contains ":" s = false ->
  urlsplit (s +:+ ":" +:+ "//" +:+ n +:+ p)
  = split_after_scheme s ("//" +:+ n +:+ p).
Proof.
  intros Hne Hall Hlow Hcolon. unfold urlsplit, find, find_from.
  cbn [slice_from]. rewrite append_cons, append_nil_l.
  rewrite (index_of_app_sep _ _ _ Hcolon). cbn [Nat.add].
  assert (Hpos : (0 <? Z.of_nat (String.length s)) = true).
  { destruct s; [congruence|]. cbn [String.length]. apply Z.ltb_lt. lia. }
  rewrite Hpos, Nat2Z.id.
  replace (Z.to_nat (Z.of_nat (String.length s) + 1))
    with (String.length (s +:+ ":")) by (rewrite length_append; cbn; lia).
  rewrite slice_to_app.
  replace (s +:+ String ":" ("//" +:+ n +:+ p))
    with ((s +:+ ":") +:+ ("//" +:+ n +:+ p))
    by (now rewrite append_assoc, append_cons, append_nil_l).
  rewrite slice_from_app, Hlow.
  change (fun c : ascii => contains c scheme_chars) with is_scheme_char.
  rewrite Hall. rewrite !append_cons.
  cbn [String.eqb str_all is_digit nat_of_ascii Nat.leb andb negb orb].
  now destruct (String.eqb s "http").
Qed.

Lemma rstrip_idempotent c s : rstrip c (rstrip c s) = rstrip c s.
Proof.
  induction s as [|a s IH]; [reflexivity|]. cbn [rstrip].
  destruct (rstrip c s) as [|b t] eqn:E.
  - destruct (Ascii.eqb a c) eqn:Ea; [reflexivity|]. cbn [rstrip]. now rewrite Ea.
  - cbn [rstrip] in IH |- *. now rewrite IH.
Qed.

Lemma urlunsplit_with_netloc s n p :
  n <> EmptyString -> rooted p = true ->
  urlunsplit s n p "" ""
  = if String.eqb s "" then "//" +:+ n +:+ p else s +:+ ":" +:+ "//" +:+ n +:+ p.
Proof.
  intros Hn%String.eqb_neq Hp. unfold urlunsplit. rewrite Hn. cbn [negb orb].
  assert ((negb (String.eqb p "") && negb (String.eqb (slice_to 1 p) "/")) = false) as ->.
  { destruct p as [|a p]; [reflexivity|]. cbn [rooted] in Hp.
    apply Ascii.eqb_eq in Hp. subst a. now destruct p. }
  cbn [String.eqb negb]. now destruct (String.eqb s "").
Qed.

(** Parsing the reassembled URL of an endpoint with an authority gives
    the stored components back. *)
Lemma urlsplit_urlunsplit value parts :
  urlsplit value = inr parts -> netloc parts <> EmptyString ->
  urlsplit (urlunsplit (scheme parts) (netloc parts) (rstrip "/" (path parts)) "" "")
  = inr (mkSplitResult (scheme parts) (netloc parts) (rstrip "/" (path parts)) "" "").
Proof.
  intros Hsplit Hn.
  destruct (urlsplit_scheme value parts Hsplit) as (head & url & Hhead & Hs & Hafter).
  destruct (split_after_scheme_shape _ _ _ Hafter Hn)
    as (_ & Hnl & Hb & Hroot & Hq & Hf).
  destruct (lower_scheme head Hhead) as (Hall & Hlow & Hcolon).
  rewrite <- Hs in Hall, Hlow, Hcolon.
  pose proof (rstrip_rooted "/" _ Hroot) as Hroot'.
  pose proof (rstrip_keeps_absent "/" "?" _ Hq) as Hq'.
  pose proof (rstrip_keeps_absent "/" "#" _ Hf) as Hf'.
  rewrite (urlunsplit_with_netloc _ _ _ Hn Hroot').
  destruct (String.eqb (scheme parts) "") eqn:E.
  - apply String.eqb_eq in E. rewrite E, urlsplit_built_schemeless.
    now apply split_after_scheme_built.
  - apply String.eqb_neq in E. rewrite urlsplit_built_scheme by assumption.
    now apply split_after_scheme_built.
Qed.

(** ** The session object and the driver *)

Section Driver.
Context `{Imports}.

Implicit Types (self : Client) (t : Transport) (g : generator)
  (r : Response) (data : json) (url : string).

Lemma fetch_delivers url r data rest log :
  delivers r data ->
  fetch url (mkTransport (inr r :: rest) log)
  = (inr data, mkTransport rest (log ++ [url])).
Proof.
  intros [Hok Hbody]. unfold fetch, requests_get, Response_json; cbn.
  now rewrite Hok, Hbody.
Qed.

Lemma fetch_failing url reply rest log :
  failing reply ->
  exists e, fetch url (mkTransport (reply :: rest) log)
            = (inl e, mkTransport rest (log ++ [url]))
            /\ match reply with
               | inl e' => e = e'
               | inr r => e = HTTPError r
               end.
Proof.
  destruct reply as [e|r]; cbn; intros Hf; unfold fetch, requests_get; cbn.
  - now exists e.
  - exists (HTTPError r). split; [|reflexivity].
    revert Hf. unfold raise_for_status.
    destruct (_ && _); [reflexivity|]. destruct (_ && _); [reflexivity|].
    intros Hf. now destruct Hf.
Qed.

Lemma has_status_still_running data s :
  has_status data s ->
  still_running data = inr (String.eqb s "IN_PROGRESS" || String.eqb s "DNS").
Proof. unfold has_status, still_running. now intros ->. Qed.

Lemma continue_polling url u r data rest log self :
  polling r data ->
  continue url (fetch u (mkTransport (inr r :: rest) log)) self
  = (Yield (Host data), Suspended url, self, mkTransport rest (log ++ [u])).
Proof.
  intros [Hd Hrun]. rewrite (fetch_delivers _ _ _ _ _ Hd). cbn. now rewrite Hrun.
Qed.

Lemma continue_terminal url u r data rest log self :
  delivers r data -> still_running data = inr false ->
  continue url (fetch u (mkTransport (inr r :: rest) log)) self
  = (StopIteration, Exhausted, set_host (Some (Host data)) self,
     mkTransport rest (log ++ [u])).
Proof.
  intros Hd Hrun. rewrite (fetch_delivers _ _ _ _ _ Hd). cbn. now rewrite Hrun.
Qed.

Lemma next_Created h p i self t :
  next (Created h p i) self t
  = continue (poll_url self h p i) (fetch (start_url self h p i) t) self.
Proof. reflexivity. Qed.

Lemma next_Suspended url self t :
  next (Suspended url) self t = continue url (fetch url t) self.
Proof. reflexivity. Qed.

(** C1: against replies whose decoded statuses are DNS, IN_PROGRESS and
    READY, the loop over [analyze] receives exactly the two partial
    snapshots, in that order, then ends normally; the session then holds
    the [Host] decoded from the READY payload, and three requests were
    made. *)
Theorem analyze_dns_in_progress_ready
    self h p i r1 r2 r3 d1 d2 d3 rest log :
  delivers r1 d1 -> has_status d1 "DNS" ->
  delivers r2 d2 -> has_status d2 "IN_PROGRESS" ->
  delivers r3 d3 -> has_status d3 "READY" ->
  run h p i self (mkTransport (inr r1 :: inr r2 :: inr r3 :: rest) log)
  = ([Host d1; Host d2], Some StopIteration, Exhausted,
     set_host (Some (Host d3)) self,
     mkTransport rest
       (((log ++ [start_url self h p i]) ++ [poll_url self h p i])
          ++ [poll_url self h p i])).
Proof.
  intros D1 S1 D2 S2 D3 S3.
  apply has_status_still_running in S1, S2, S3. cbn in S1, S2, S3.
  unfold run, analyze. cbn [script length iterate].
  rewrite next_Created, (continue_polling _ _ r1 d1) by (split; assumption).
  cbn [iterate].
  rewrite next_Suspended, (continue_polling _ _ r2 d2) by (split; assumption).
  cbn [iterate].
  rewrite next_Suspended, (continue_terminal _ _ r3 d3) by assumption.
  reflexivity.
Qed.

Lemma still_running_terminal data s :
  has_status data s -> s <> "IN_PROGRESS" -> s <> "DNS" ->
  still_running data = inr false.
Proof.
  intros Hs H1 H2. rewrite (has_status_still_running _ _ Hs).
  apply String.eqb_neq in H1, H2. now rewrite H1, H2.
Qed.

(** C9: when the first reply already carries a terminal status (any
    string other than IN_PROGRESS and DNS), the loop receives no
    snapshot at all and the session holds the [Host] decoded from that
    first payload. *)
Theorem analyze_terminal_at_once self h p i r data s rest log :
  delivers r data -> has_status data s ->
  s <> "IN_PROGRESS" -> s <> "DNS" ->
  run h p i self (mkTransport (inr r :: rest) log)
  = ([], Some StopIteration, Exhausted, set_host (Some (Host data)) self,
     mkTransport rest (log ++ [start_url self h p i])).
Proof.
  intros D S N1 N2. unfold run, analyze. cbn [script length iterate].
  rewrite next_Created.
  now rewrite (continue_terminal _ _ r data)
    by eauto using still_running_terminal.
Qed.

(** [raise_for_status] raises exactly on the 4xx and 5xx statuses. *)
Lemma raise_for_status_spec r :
  raise_for_status r
  = if (400 <=? status_code r) && (status_code r <? 600)
    then inl (HTTPError r) else inr tt.
Proof.
  unfold raise_for_status.
  destruct (400 <=? status_code r) eqn:E1, (status_code r <? 500) eqn:E2,
    (500 <=? status_code r) eqn:E3, (status_code r <? 600) eqn:E4;
    cbn; try reflexivity; lia.
Qed.

Lemma next_failing g self reply rest log :
  g <> Exhausted -> failing reply ->
  exists e t',
    next g self (mkTransport (reply :: rest) log)
    = (Raise (handler e), Exhausted, self, t')
    /\ script t' = rest
    /\ match reply with inl e' => e = e' | inr r => e = HTTPError r end.
Proof.
  intros Hg Hf. destruct g as [h p i|url|]; [| |congruence].
  - destruct (fetch_failing (start_url self h p i) reply rest log Hf)
      as (e & Hfetch & He).
    exists e; eexists. rewrite next_Created, Hfetch. cbn. eauto.
  - destruct (fetch_failing url reply rest log Hf) as (e & Hfetch & He).
    exists e; eexists. rewrite next_Suspended, Hfetch. cbn. eauto.
Qed.

(** C3: when a request of the driver, the first or a later one, is
    answered by a response on which [raise_for_status] raises, the call
    of [next] raises the exception class that [errors.codes] maps the
    status code to, built from the response's reason phrase, if the code
    is a key of [errors.codes]; otherwise it raises the very [HTTPError]
    of [raise_for_status].  The generator is finished and [self] is as
    before. *)
Theorem http_failure_is_mapped g self r rest log e :
  g <> Exhausted ->
  raise_for_status r = inl e ->
  e = HTTPError r /\
  exists t',
    next g self (mkTransport (inr r :: rest) log)
    = (Raise match codes !! status_code r with
             | Some kind => ResponseError kind (reason r)
             | None => e
             end,
       Exhausted, self, t').
Proof.
  intros Hg He.
  assert (Hf : failing (inr r)) by (cbn; congruence).
  destruct (next_failing g self _ rest log Hg Hf) as (e' & t' & Hn & _ & ->).
  assert (e = HTTPError r) as ->.
  { rewrite raise_for_status_spec in He. destruct (_ && _); congruence. }
  split; [reflexivity|]. exists t'. rewrite Hn. cbn.
  now destruct (codes !! status_code r).
Qed.

Lemma next_polling g self r data rest log :
  g <> Exhausted -> polling r data ->
  exists u u',
    next g self (mkTransport (inr r :: rest) log)
    = (Yield (Host data), Suspended u', self, mkTransport rest (log ++ [u])).
Proof.
  intros Hg Hp. destruct g as [h p i|url|]; [| |congruence].
  - do 2 eexists. rewrite next_Created. now apply continue_polling.
  - do 2 eexists. rewrite next_Suspended. now apply continue_polling.
Qed.

Lemma iterate_polling_then_failing pre : forall datas bad rest fuel g self log,
  Forall2 polling pre datas -> failing bad -> g <> Exhausted ->
  (length pre < fuel)%nat ->
  exists e t',
    iterate fuel g self (mkTransport (map inr pre ++ bad :: rest) log)
    = (map Host datas, Some (Raise e), Exhausted, self, t')
    /\ script t' = rest.
Proof.
  induction pre as [|r pre IH]; intros datas bad rest fuel g self log HF Hb Hg Hfuel.
  - inversion HF; subst. destruct fuel as [|fuel]; [cbn in Hfuel; lia|].
    destruct (next_failing g self bad rest log Hg Hb) as (e & t' & Hn & Ht & _).
    exists (handler e), t'. cbn [map app iterate]. now rewrite Hn.
  - inversion HF as [|? data ? datas' Hp HF']; subst.
    destruct fuel as [|fuel]; [cbn in Hfuel; lia|].
    destruct (next_polling g self r data (map inr pre ++ bad :: rest) log Hg Hp)
      as (u & u' & Hn).
    destruct (IH datas' bad rest fuel (Suspended u') self (log ++ [u]) HF' Hb)
      as (e & t' & Hi & Ht); [congruence|cbn in Hfuel; lia|].
    exists e, t'. cbn [map app iterate]. rewrite Hn, Hi. now split.
Qed.

Lemma next_self g self t s g' self' t' :
  next g self t = (s, g', self', t') ->
  __scheme self' = __scheme self /\ __netloc self' = __netloc self
  /\ __path self' = __path self
  /\ (s <> StopIteration -> self' = self).
Proof.
  assert (Hc : forall url fetched,
    continue url fetched self = (s, g', self', t') ->
    __scheme self' = __scheme self /\ __netloc self' = __netloc self
    /\ __path self' = __path self /\ (s <> StopIteration -> self' = self)).
  { intros url [[e|data] t0]; cbn.
    - intros [= <- <- <- <-]. auto.
    - destruct (still_running data) as [e|[]]; intros [= <- <- <- <-]; cbn; auto.
      repeat split; congruence. }
  destruct g as [h p i|url|]; cbn [next]; eauto.
  intros [= <- <- <- <-]. auto.
Qed.

(** Only a completed run assigns to the session: however a loop over
    the generator ends otherwise (an exception of any kind, or the
    caller stopping early), the session object is the one it began
    with. *)
Lemma iterate_commits_on_completion_only fuel :
  forall g self t ys s g' self' t',
    iterate fuel g self t = (ys, s, g', self', t') ->
    s <> Some StopIteration -> self' = self.
Proof.
  induction fuel as [|fuel IH]; intros g self t ys s g' self' t'; cbn [iterate].
  - now intros [= <- <- <- <- <-].
  - destruct (next g self t) as [[[s1 g1] self1] t1] eqn:E.
    destruct (next_self _ _ _ _ _ _ _ E) as (_ & _ & _ & Hsame).
    destruct s1 as [snapshot| |e].
    + destruct (iterate fuel g1 self1 t1) as [[[[ys2 s2] g2] self2] t2] eqn:E2.
      intros [= <- <- <- <- <-] Hs.
      rewrite (IH _ _ _ _ _ _ _ _ E2 Hs). now apply Hsame.
    + intros [= <- <- <- <- <-]. congruence.
    + intros [= <- <- <- <- <-] _. now apply Hsame.
Qed.

(** C4: if a request of a run fails, at once or after any number of
    polling replies, the loop is left by an exception after the
    snapshots of those replies, and the session object, completed
    snapshot included, is the one the run started with: still unset, or
    still the earlier result. *)
Theorem failure_commits_nothing h p i self pre datas bad rest log :
  Forall2 polling pre datas -> failing bad ->
  exists e t',
    run h p i self (mkTransport (map inr pre ++ bad :: rest) log)
    = (map Host datas, Some (Raise e), Exhausted, self, t').
Proof.
  intros HF Hb. unfold run, analyze.
  destruct (iterate_polling_then_failing pre datas bad rest
              (S (length (map inr pre ++ bad :: rest)))
              (Created h p i) self log HF Hb) as (e & t' & Hi & _).
  - congruence.
  - rewrite length_app, length_map. lia.
  - exists e, t'. exact Hi.
Qed.

Lemma host_unset self :
  __host self = None ->
  host self
  = (inl (NoHostError
       "analyze must be run to completion before the host property may be accessed"),
     self).
Proof. unfold host. cbn. unfold getattr, mbind, Method_bind. now intros ->. Qed.

Lemma host_set self h :
  __host self = Some h -> host self = (inr h, self).
Proof. unfold host. cbn. unfold getattr, mbind, Method_bind. now intros ->. Qed.

Lemma entrypoint_setter_spec value self :
  entrypoint_setter value self
  = match urlsplit value with
    | inl e => (inl e, self)
    | inr parts =>
        (inr tt, mkClient (scheme parts) (netloc parts)
                   (rstrip "/" (path parts)) (__host self))
    end.
Proof.
  unfold entrypoint_setter, mbind, Method_bind, call, setattr.
  now destruct (urlsplit value).
Qed.

Lemma new_Client_spec value :
  new_Client value
  = match urlsplit value with
    | inl e => inl e
    | inr parts =>
        inr (mkClient (scheme parts) (netloc parts) (rstrip "/" (path parts)) None)
    end.
Proof.
  unfold new_Client, __init__, mbind, Method_bind.
  rewrite entrypoint_setter_spec. now destruct (urlsplit value).
Qed.

Lemma host_self self : snd (host self) = self.
Proof. unfold host, mbind, Method_bind, getattr. now destruct (__host self). Qed.

Lemma unfinished_unset self : unfinished self -> __host self = None.
Proof.
  induction 1 as [value self Hnew| | value self _ IH| |g self t s g' self' t' _ IH Hn Hs].
  - rewrite new_Client_spec in Hnew. destruct (urlsplit value); [discriminate|].
    now injection Hnew as <-.
  - assumption.
  - rewrite entrypoint_setter_spec. now destruct (urlsplit value).
  - now rewrite host_self.
  - destruct (next_self _ _ _ _ _ _ _ Hn) as (_ & _ & _ & Hsame).
    now rewrite (Hsame Hs).
Qed.

Lemma next_completes g self t g' self' t' :
  next g self t = (StopIteration, g', self', t') -> g <> Exhausted ->
  exists r data rest,
    script t = inr r :: rest /\ delivers r data
    /\ still_running data = inr false
    /\ self' = set_host (Some (Host data)) self.
Proof.
  assert (Hc : forall url u,
    continue url (fetch u t) self = (StopIteration, g', self', t') ->
    exists r data rest,
      script t = inr r :: rest /\ delivers r data
      /\ still_running data = inr false
      /\ self' = set_host (Some (Host data)) self).
  { intros url u. unfold fetch, requests_get.
    destruct (script t) as [|[e|r] rest] eqn:Hs; cbn; try discriminate.
    destruct (raise_for_status r) as [e|[]] eqn:Hr; cbn; try discriminate.
    unfold Response_json. destruct (body r) as [data|] eqn:Hb; cbn; try discriminate.
    destruct (still_running data) as [e|[]] eqn:Hrun; try discriminate.
    intros [= <- <- <-]. exists r, data, rest. repeat split; assumption. }
  destruct g as [h p i|url|]; cbn [next]; [eauto..|congruence].
Qed.

(** C5: on a session on which no run has reached a terminal status,
    reading [host] raises [NoHostError] and returns nothing; and whenever
    a call of [next] completes a run, which it does on a reply whose
    status is terminal, reading [host] afterwards returns the [Host]
    decoded from that reply's payload. *)
Theorem host_after_terminal_only :
  (forall self, unfinished self ->
     exists msg, host self = (inl (NoHostError msg), self))
  /\
  (forall g self t g' self' t',
     next g self t = (StopIteration, g', self', t') -> g <> Exhausted ->
     exists r data rest,
       script t = inr r :: rest /\ delivers r data
       /\ still_running data = inr false
       /\ host self' = (inr (Host data), self')).
Proof.
  split.
  - intros self Hu. eexists. apply host_unset. now apply unfinished_unset.
  - intros g self t g' self' t' Hn Hg.
    destruct (next_completes _ _ _ _ _ _ Hn Hg) as (r & data & rest & ? & ? & ? & ->).
    exists r, data, rest. do 3 (split; [assumption|]). now apply host_set.
Qed.

(** C10: assigning to [entrypoint], whether it succeeds or raises, leaves
    the completed-snapshot slot as it was, and reading [host], whether it
    returns or raises, leaves the whole session object as it was. *)
Theorem properties_touch_only_their_fields value self :
  __host (snd (entrypoint_setter value self)) = __host self
  /\ snd (host self) = self.
Proof.
  split; [|apply host_self].
  rewrite entrypoint_setter_spec. now destruct (urlsplit value).
Qed.

Lemma split_after_scheme_raises sch url e :
  split_after_scheme sch url = inl e -> e = ValueError "Invalid IPv6 URL".
Proof.
  unfold split_after_scheme.
  destruct (String.eqb (slice_to 2 url) "//").
  - destruct (_splitnetloc url 2) as [nl rest].
    destruct (_ || _).
    + now intros [= <-].
    + destruct (if contains "#" rest then _ else _) as [u1 fr].
      destruct (if contains "?" u1 then _ else _) as [u2 q]. discriminate.
  - destruct (if contains "#" url then _ else _) as [u1 fr].
    destruct (if contains "?" u1 then _ else _) as [u2 q]. discriminate.
Qed.

(** The one exception [urlsplit] raises is a [ValueError]. *)
Lemma urlsplit_raises value e :
  urlsplit value = inl e -> e = ValueError "Invalid IPv6 URL".
Proof.
  unfold urlsplit.
  repeat match goal with
         | |- context [if ?b then _ else _] => destruct b
         end; apply split_after_scheme_raises.
Qed.

(** C7: configuration fails exactly when the URL-parsing primitive
    [urlsplit] does.  A URL that [urlsplit] rejects makes both the
    assignment to [entrypoint] and the construction of a [Client] raise,
    then and there, the exception [urlsplit] raised, which is a
    [ValueError], and the assignment leaves the session object
    untouched.  A string that [urlsplit] accepts is accepted by both,
    whatever it is: its scheme, its authority and its path without
    trailing slashes are stored as [urlsplit] found them, with no
    further validation. *)
Theorem configuration_follows_urlsplit value :
  (forall e, urlsplit value = inl e ->
     (exists msg, e = ValueError msg)
     /\ (forall self, entrypoint_setter value self = (inl e, self))
     /\ new_Client value = inl e)
  /\
  (forall parts, urlsplit value = inr parts ->
     (forall self,
        entrypoint_setter value self
        = (inr tt,
           mkClient (scheme parts) (netloc parts) (rstrip "/" (path parts))
             (__host self)))
     /\ new_Client value
        = inr (mkClient (scheme parts) (netloc parts)
                 (rstrip "/" (path parts)) None)).
Proof.
  split.
  - intros e He. split; [|split].
    + exists "Invalid IPv6 URL"%string. exact (urlsplit_raises value e He).
    + intros self. now rewrite entrypoint_setter_spec, He.
    + now rewrite new_Client_spec, He.
  - intros parts Hp. split.
    + intros self. now rewrite entrypoint_setter_spec, Hp.
    + now rewrite new_Client_spec, Hp.
Qed.

Lemma configured_new value self : new_Client value = inr self -> configured self.
Proof.
  rewrite new_Client_spec. destruct (urlsplit value) as [e|parts] eqn:E; [discriminate|].
  intros [= <-]. exists value, parts. cbn. auto.
Qed.

Lemma configured_setter value self self' :
  entrypoint_setter value self = (inr tt, self') -> configured self'.
Proof.
  rewrite entrypoint_setter_spec.
  destruct (urlsplit value) as [e|parts] eqn:E; [discriminate|].
  intros [= <-]. exists value, parts. cbn. auto.
Qed.

(** Being configured is an invariant of the session: the setter
    establishes it when it succeeds and changes nothing when it raises,
    and the driver never assigns an endpoint attribute. *)
Lemma configured_setter_kept value self :
  configured self -> configured (snd (entrypoint_setter value self)).
Proof.
  intros Hc. destruct (entrypoint_setter value self) as [[e|[]] self'] eqn:E.
  - rewrite entrypoint_setter_spec in E. destruct (urlsplit value); [|discriminate].
    now injection E as _ <-.
  - exact (configured_setter _ _ _ E).
Qed.

Lemma configured_next g self t s g' self' t' :
  configured self -> next g self t = (s, g', self', t') -> configured self'.
Proof.
  intros (value & parts & Hsplit & Hs & Hn & Hp) Hnext.
  destruct (next_self _ _ _ _ _ _ _ Hnext) as (Es & En & Ep & _).
  exists value, parts. rewrite Es, En, Ep. auto.
Qed.

Lemma configured_avoids c self :
  c = "?"%char \/ c = "#"%char -> configured self ->
  contains c (__scheme self) = false
  /\ contains c (__netloc self) = false
  /\ contains c (__path self) = false.
Proof.
  intros Hc (value & parts & Hsplit & -> & -> & ->).
  destruct (urlsplit_avoids c value parts Hc Hsplit) as (? & ? & ?).
  auto using rstrip_keeps_absent.
Qed.

(** The query of a URL the driver builds decodes to the dictionary it
    was built from. *)
Lemma request_params_built self query :
  configured self -> query <> [] ->
  request_params
    (urlunsplit (__scheme self) (__netloc self)
       (join "/" [__path self; "analyze"]) (urlencode query) "")
  = query.
Proof.
  intros Hc Hq. unfold request_params.
  destruct query as [|kv d]; [congruence|].
  rewrite urlunsplit_with_query by apply urlencode_nonempty.
  rewrite url_query_built; [apply parse_qsl_urlencode| | |].
  - destruct (configured_avoids "?" self) as (Hs & Hn & Hp); auto.
    apply urlunsplit_avoids; try discriminate; try assumption.
    now rewrite join_cons, !contains_app, Hp.
  - destruct (configured_avoids "#" self) as (Hs & Hn & Hp); auto.
    apply urlunsplit_avoids; try discriminate; try assumption.
    now rewrite join_cons, !contains_app, Hp.
  - apply urlencode_avoids. auto.
Qed.

Lemma request_params_poll self h p i :
  configured self ->
  request_params (poll_url self h p i) = analyze_query h p i.
Proof.
  intros Hc. apply request_params_built; [assumption|].
  now destruct p, i.
Qed.

Lemma request_params_start self h p i :
  configured self ->
  request_params (start_url self h p i)
  = ("startNew", "on") :: analyze_query h p i.
Proof.
  intros Hc. unfold start_url. rewrite request_params_built; [|assumption|].
  - now destruct p, i.
  - now destruct p, i.
Qed.

Lemma analyze_query_carries h p i : carries h p i (analyze_query h p i).
Proof.
  unfold carries. destruct p, i; cbn; intuition congruence.
Qed.

Lemma analyze_query_incl h p i :
  incl (analyze_query h p i)
    [("host", h); ("all", "done"); ("publish", "on"); ("ignoreMismatch", "on")].
Proof.
  intros kv. destruct p, i; cbn; intuition.
Qed.

Lemma analyze_query_no_startNew h p i v :
  ~ In ("startNew", v) (analyze_query h p i).
Proof.
  destruct p, i; cbn; intuition congruence.
Qed.

Lemma continue_requested url u self t s g' self' t' :
  continue url (fetch u t) self = (s, g', self', t') ->
  requested t' = requested t ++ [u]
  /\ match s with Yield _ => g' = Suspended url | _ => g' = Exhausted end.
Proof.
  unfold fetch, requests_get.
  destruct (script t) as [|[e|r] rest]; cbn.
  - intros [= <- <- <- <-]. auto.
  - intros [= <- <- <- <-]. auto.
  - destruct (raise_for_status r) as [e|[]]; cbn.
    + intros [= <- <- <- <-]. auto.
    + destruct (Response_json r) as [e|data]; cbn.
      * intros [= <- <- <- <-]. auto.
      * destruct (still_running data) as [e|[]]; intros [= <- <- <- <-]; auto.
Qed.

Lemma iterate_Suspended_requested fuel : forall url self t ys s g' self' t',
  iterate fuel (Suspended url) self t = (ys, s, g', self', t') ->
  exists k, requested t' = requested t ++ repeat url k.
Proof.
  induction fuel as [|fuel IH]; intros url self t ys s g' self' t'; cbn [iterate].
  - intros [= <- <- <- <- <-]. exists O. cbn. now rewrite app_nil_r.
  - rewrite next_Suspended.
    destruct (continue url (fetch url t) self) as [[[s1 g1] self1] t1] eqn:E.
    destruct (continue_requested _ _ _ _ _ _ _ _ E) as (Hreq & Hg).
    destruct s1 as [snapshot| |e].
    + subst g1.
      destruct (iterate fuel (Suspended url) self1 t1)
        as [[[[ys2 s2] g2] self2] t2] eqn:E2.
      intros [= <- <- <- <- <-].
      destruct (IH _ _ _ _ _ _ _ _ E2) as (k & Hk).
      exists (S k). rewrite Hk, Hreq, <- app_assoc. reflexivity.
    + intros [= <- <- <- <- <-]. exists 1%nat. exact Hreq.
    + intros [= <- <- <- <- <-]. exists 1%nat. exact Hreq.
Qed.

(** The requests of a run, in order: the start URL once, then the
    polling URL as often as the loop came round. *)
Lemma iterate_analyze_requested fuel h p i self t ys s g' self' t' :
  iterate (S fuel) (analyze h p i) self t = (ys, s, g', self', t') ->
  exists k,
    requested t'
    = requested t ++ start_url self h p i :: repeat (poll_url self h p i) k.
Proof.
  unfold analyze. cbn [iterate]. rewrite next_Created.
  destruct (continue _ (fetch _ t) self) as [[[s1 g1] self1] t1] eqn:E.
  destruct (continue_requested _ _ _ _ _ _ _ _ E) as (Hreq & Hg).
  destruct s1 as [snapshot| |e].
  - subst g1.
    destruct (iterate fuel _ self1 t1) as [[[[ys2 s2] g2] self2] t2] eqn:E2.
    intros [= <- <- <- <- <-].
    destruct (iterate_Suspended_requested _ _ _ _ _ _ _ _ _ E2) as (k & Hk).
    exists k. rewrite Hk, Hreq, <- app_assoc. reflexivity.
  - intros [= <- <- <- <- <-]. exists O. exact Hreq.
  - intros [= <- <- <- <- <-]. exists O. exact Hreq.
Qed.

Lemma continue_Yield_consumes url u self t snapshot g' self' t' :
  continue url (fetch u t) self = (Yield snapshot, g', self', t') ->
  length (script t) = S (length (script t')).
Proof.
  unfold fetch, requests_get.
  destruct (script t) as [|[e|r] rest]; cbn; try discriminate.
  destruct (raise_for_status r) as [e|[]]; cbn; try discriminate.
  destruct (Response_json r) as [e|data]; cbn; try discriminate.
  destruct (still_running data) as [e|[]]; intros [= <- <- <- <-]; reflexivity.
Qed.

(** The loop over a generator always ends when the transport is
    scripted: one call of [next] more than there are replies left
    suffices, which is the fuel [run] provides. *)
Lemma iterate_ends fuel : forall g self t,
  (length (script t) < fuel)%nat ->
  exists ys s g' self' t', iterate fuel g self t = (ys, Some s, g', self', t').
Proof.
  induction fuel as [|fuel IH]; intros g self t Hfuel; [lia|].
  cbn [iterate].
  destruct (next g self t) as [[[s1 g1] self1] t1] eqn:E.
  destruct s1 as [snapshot| |e]; [|do 5 eexists; reflexivity..].
  assert (Hlen : length (script t) = S (length (script t1))).
  { destruct g as [h p i|url|]; cbn [next] in E.
    - exact (continue_Yield_consumes _ _ _ _ _ _ _ _ E).
    - exact (continue_Yield_consumes _ _ _ _ _ _ _ _ E).
    - discriminate. }
  destruct (IH g1 self1 t1) as (ys & s & g' & self' & t' & Hi); [lia|].
  rewrite Hi. do 5 eexists. reflexivity.
Qed.

Lemma run_ends h p i self t :
  exists ys s g' self' t', run h p i self t = (ys, Some s, g', self', t').
Proof. unfold run. apply iterate_ends. lia. Qed.

(** C2: in a run on a configured session, however far the caller drives
    it, the first request made carries the parameter startNew=on and no
    later request of the run carries a parameter named startNew. *)
Theorem startNew_on_first_request_only fuel h p i self t ys s g' self' t' :
  configured self ->
  iterate (S fuel) (analyze h p i) self t = (ys, s, g', self', t') ->
  exists first later,
    requested t' = requested t ++ first :: later
    /\ In ("startNew", "on") (request_params first)
    /\ Forall (fun url => forall v, ~ In ("startNew", v) (request_params url))
         later.
Proof.
  intros Hc Hrun.
  destruct (iterate_analyze_requested _ _ _ _ _ _ _ _ _ _ _ Hrun) as (k & Hk).
  exists (start_url self h p i), (repeat (poll_url self h p i) k).
  split; [exact Hk|]. split.
  - rewrite request_params_start by assumption. now left.
  - apply List.Forall_forall. intros url Hin%repeat_spec. subst url.
    rewrite request_params_poll by assumption.
    intros v. apply analyze_query_no_startNew.
Qed.

(** C8: in a run on a configured session, every request carries host=h
    and all=done, carries publish=on exactly when [publish] is set and
    ignoreMismatch=on exactly when [ignoreMismatch] is set; the first
    request carries nothing besides these and startNew=on, and the later
    requests carry nothing besides these. *)
Theorem request_parameters fuel h p i self t ys s g' self' t' :
  configured self ->
  iterate (S fuel) (analyze h p i) self t = (ys, s, g', self', t') ->
  exists first later,
    requested t' = requested t ++ first :: later
    /\ carries h p i (request_params first)
    /\ incl (request_params first)
         [("startNew", "on"); ("host", h); ("all", "done");
          ("publish", "on"); ("ignoreMismatch", "on")]
    /\ Forall (fun url =>
                 carries h p i (request_params url)
                 /\ incl (request_params url)
                      [("host", h); ("all", "done");
                       ("publish", "on"); ("ignoreMismatch", "on")])
         later.
Proof.
  intros Hc Hrun.
  destruct (iterate_analyze_requested _ _ _ _ _ _ _ _ _ _ _ Hrun) as (k & Hk).
  exists (start_url self h p i), (repeat (poll_url self h p i) k).
  split; [exact Hk|]. rewrite request_params_start by assumption.
  pose proof (analyze_query_carries h p i) as (H1 & H2 & H3 & H4).
  pose proof (analyze_query_incl h p i) as Hincl.
  split; [|split].
  - unfold carries. cbn [In]. rewrite <- H3, <- H4.
    intuition congruence.
  - intros kv [<- | Hin]; [now left|]. right. now apply Hincl.
  - apply List.Forall_forall. intros url Hin%repeat_spec. subst url.
    rewrite request_params_poll by assumption.
    split; [now apply analyze_query_carries|exact Hincl].
Qed.

(** C6: for a base URL in which [urlsplit] finds a scheme and an
    authority, the setter succeeds, and parsing what the getter then
    returns yields the scheme and the authority of the original URL and,
    trailing slashes apart, its path; query and fragment come back
    empty. *)
Theorem entrypoint_round_trip value self :
  valid_base_url value = true ->
  exists parts self' url parts',
    urlsplit value = inr parts
    /\ entrypoint_setter value self = (inr tt, self')
    /\ entrypoint self' = (inr url, self')
    /\ urlsplit url = inr parts'
    /\ scheme parts' = scheme parts
    /\ netloc parts' = netloc parts
    /\ rstrip "/" (path parts') = rstrip "/" (path parts)
    /\ query parts' = EmptyString
    /\ fragment parts' = EmptyString.
Proof.
  unfold valid_base_url.
  destruct (urlsplit value) as [e|parts] eqn:Hsplit; [discriminate|].
  intros [_ Hn%negb_true_iff%String.eqb_neq]%andb_prop.
  exists parts. eexists. eexists. eexists.
  split; [reflexivity|]. split.
  { rewrite entrypoint_setter_spec, Hsplit. reflexivity. }
  split; [reflexivity|]. cbn [__scheme __netloc __path].
  split; [exact (urlsplit_urlunsplit value parts Hsplit Hn)|].
  cbn. auto using rstrip_idempotent.
Qed.

End Driver.

(** * Further properties of the client *)

Section Further.
Context `{Imports} `{Records}.

Implicit Types (self : Client) (t : Transport) (g : generator)
  (r : Response) (data : json) (url : string).

Ltac push_append := repeat first [rewrite append_cons | rewrite append_nil_l].

Lemma rstrip_not_single c s : rstrip c s <> String c EmptyString.
Proof.
  destruct s as [|a s]; [discriminate|]. cbn [rstrip].
  destruct (rstrip c s) as [|b t].
  - destruct (Ascii.eqb a c) eqn:E; [discriminate|].
    intros [= ->]. now rewrite Ascii.eqb_refl in E.
  - discriminate.
Qed.

(** Appending a path segment to the path appends it to the URL, unless
    the path is the single slash that [rstrip] never leaves. *)
Lemma urlunsplit_child s n p name :
  p <> "/"%string -> rooted name = false ->
  urlunsplit s n (join "/" [p; name]) "" ""
  = urlunsplit s n p "" "" +:+ "/" +:+ name.
Proof.
  intros Hp Hname. rewrite join_cons. cbn [join].
  destruct name as [|x name]; [discriminate|]. cbn [rooted] in Hname.
  unfold urlunsplit. cbn [String.eqb negb].
  assert (H2 : String.eqb (slice_to 2 (p +:+ "/" +:+ String x name)) "//"
               = String.eqb (slice_to 2 p) "//").
  { destruct p as [|a [|b p]].
    - push_append. cbn. now rewrite Hname.
    - push_append. cbn.
      destruct (Ascii.eqb a "/") eqn:E; [|reflexivity].
      apply Ascii.eqb_eq in E. now subst a.
    - push_append. reflexivity. }
  assert (H1 : (negb (String.eqb (p +:+ "/" +:+ String x name) "")
                && negb (String.eqb (slice_to 1 (p +:+ "/" +:+ String x name)) "/"))
               = (negb (String.eqb p "") && negb (String.eqb (slice_to 1 p) "/"))).
  { destruct p as [|a p]; [reflexivity|].
    push_append. cbn [slice_to String.eqb]. now destruct p. }
  rewrite H2, H1.
  repeat match goal with
         | |- context [if ?b then _ else _] => destruct b
         end;
    rewrite ?append_assoc, ?append_cons, ?append_nil_l; reflexivity.
Qed.

Lemma configured_path self : configured self -> __path self <> "/"%string.
Proof. intros (value & parts & _ & _ & _ & ->). apply rstrip_not_single. Qed.

Lemma fetch_requested url t :
  requested (snd (fetch url t)) = requested t ++ [url].
Proof.
  unfold fetch, requests_get.
  destruct (script t) as [|[e|r] rest]; cbn; try reflexivity.
  now destruct (raise_for_status r).
Qed.

(** X1: on a session whose endpoint was assigned by the setter, [info]
    and [statusCodes] each send exactly one request, whatever reply
    comes back, and its URL is the URL the [entrypoint] getter returns
    followed by [/info], respectively [/getStatusCodes]. *)
Theorem reference_endpoints_request self t :
  configured self ->
  exists base,
    entrypoint self = (inr base, self)
    /\ requested (snd (info self t)) = requested t ++ [base +:+ "/info"]
    /\ requested (snd (statusCodes self t))
       = requested t ++ [base +:+ "/getStatusCodes"].
Proof.
  intros Hc. pose proof (configured_path self Hc) as Hp.
  exists (urlunsplit (__scheme self) (__netloc self) (__path self) "" "").
  split; [reflexivity|]. unfold info, statusCodes. split.
  - pose proof (fetch_requested
      (urlunsplit (__scheme self) (__netloc self) (join "/" [__path self; "info"]) "" "") t) as Hf.
    rewrite urlunsplit_child in Hf at 2 by (assumption || reflexivity).
    destruct (fetch _ t) as [[e|data] t']; exact Hf.
  - pose proof (fetch_requested
      (urlunsplit (__scheme self) (__netloc self)
         (join "/" [__path self; "getStatusCodes"]) "" "") t) as Hf.
    rewrite urlunsplit_child in Hf at 2 by (assumption || reflexivity).
    destruct (fetch _ t) as [[e|data] t']; exact Hf.
Qed.

(** X2: [info] and [statusCodes] hand the decoded body of a response
    that passes [raise_for_status] to [Info], respectively
    [StatusCodes], whatever the body holds; when the request fails they
    raise the exception as it is: an [HTTPError] is not translated
    through [errors.codes], even for a status code that is one of its
    keys, unlike in [analyze]. *)
Theorem reference_endpoints_outcome self reply rest log :
  (forall r data, reply = inr r -> delivers r data ->
     fst (info self (mkTransport (reply :: rest) log)) = inr (Info data)
     /\ fst (statusCodes self (mkTransport (reply :: rest) log))
        = inr (StatusCodes data))
  /\ (failing reply ->
      exists e,
        match reply with inl e' => e = e' | inr r => e = HTTPError r end
        /\ fst (info self (mkTransport (reply :: rest) log)) = inl e
        /\ fst (statusCodes self (mkTransport (reply :: rest) log)) = inl e).
Proof.
  split.
  - intros r data -> Hd. unfold info, statusCodes.
    now rewrite !(fetch_delivers _ _ _ _ _ Hd).
  - intros Hf. unfold info, statusCodes.
    destruct (fetch_failing
      (urlunsplit (__scheme self) (__netloc self) (join "/" [__path self; "info"]) "" "")
      reply rest log Hf) as (e & -> & He).
    destruct (fetch_failing
      (urlunsplit (__scheme self) (__netloc self)
         (join "/" [__path self; "getStatusCodes"]) "" "")
      reply rest log Hf) as (e' & -> & He').
    exists e. cbn. split; [exact He|]. split; [reflexivity|].
    f_equal. destruct reply; congruence.
Qed.

(** X3: on a session whose endpoint was assigned by the setter, each
    of the two URLs of a run of [analyze] is the URL the [entrypoint]
    getter returns, followed by [/analyze], a ['?'] and the URL's own
    query component: the parameters are all the driver adds after the
    endpoint's name, in whatever order they are encoded. *)
Theorem analyze_urls_extend_entrypoint self h p i :
  configured self ->
  exists base,
    entrypoint self = (inr base, self)
    /\ start_url self h p i
       = base +:+ "/analyze" +:+ "?" +:+ url_query (start_url self h p i)
    /\ poll_url self h p i
       = base +:+ "/analyze" +:+ "?" +:+ url_query (poll_url self h p i).
Proof.
  intros Hc. pose proof (configured_path self Hc) as Hp.
  exists (urlunsplit (__scheme self) (__netloc self) (__path self) "" "").
  split; [reflexivity|].
  destruct (configured_avoids "?" self) as (Hs1 & Hn1 & Hp1); auto.
  destruct (configured_avoids "#" self) as (Hs2 & Hn2 & Hp2); auto.
  assert (Hbase : forall c, c = "?"%char \/ c = "#"%char ->
    contains c (urlunsplit (__scheme self) (__netloc self) (__path self) "" ""
                +:+ "/analyze") = false).
  { intros c Hc'. rewrite contains_app.
    destruct Hc' as [-> | ->]; rewrite urlunsplit_avoids by (assumption || discriminate);
      reflexivity. }
  assert (Hurl : forall query, query <> [] ->
    urlunsplit (__scheme self) (__netloc self) (join "/" [__path self; "analyze"])
      (urlencode query) ""
    = urlunsplit (__scheme self) (__netloc self) (__path self) "" ""
      +:+ "/analyze" +:+ "?"
      +:+ url_query
            (urlunsplit (__scheme self) (__netloc self)
               (join "/" [__path self; "analyze"]) (urlencode query) "")).
  { intros [|kv d] Hq; [congruence|].
    rewrite urlunsplit_with_query by apply urlencode_nonempty.
    rewrite urlunsplit_child by (assumption || reflexivity).
    change ("/" +:+ "analyze") with "/analyze"%string.
    rewrite url_query_built by (auto using urlencode_avoids).
    now rewrite append_assoc. }
  unfold start_url, poll_url. split; apply Hurl; now destruct p, i.
Qed.

(** X4: the URL the getter returns never contains a ['?'] or a ['#']:
    query and fragment of the URL given to the setter are dropped. *)
Theorem entrypoint_has_no_query_or_fragment self base :
  configured self -> entrypoint self = (inr base, self) ->
  contains "?" base = false /\ contains "#" base = false.
Proof.
  intros Hc [= <-].
  destruct (configured_avoids "?" self) as (? & ? & ?); auto.
  destruct (configured_avoids "#" self) as (? & ? & ?); auto.
  split; apply urlunsplit_avoids; auto; discriminate.
Qed.

(** X5: assigning to [entrypoint] the URL its getter returns changes
    nothing, on a session whose endpoint was assigned by the setter and
    has an authority. *)
Theorem entrypoint_set_get self base :
  configured self -> __netloc self <> EmptyString ->
  entrypoint self = (inr base, self) ->
  entrypoint_setter base self = (inr tt, self).
Proof.
  intros (value & parts & Hsplit & Hs & Hn & Hp) Hne [= <-].
  rewrite Hn in Hne. rewrite entrypoint_setter_spec, Hs, Hn, Hp.
  rewrite (urlsplit_urlunsplit value parts Hsplit Hne). cbn.
  rewrite rstrip_idempotent, <- Hs, <- Hn, <- Hp. now destruct self.
Qed.

Lemma next_requested g self t s g' self' t' :
  g <> Exhausted -> next g self t = (s, g', self', t') ->
  exists u u',
    (forall n, request_urls g self (S n) = u :: repeat u' n)
    /\ requested t' = requested t ++ [u]
    /\ match s with
       | Yield _ => g' = Suspended u' /\ self' = self
       | _ => g' = Exhausted
       end.
Proof.
  intros Hg Hn. pose proof (next_self _ _ _ _ _ _ _ Hn) as (_ & _ & _ & Hsame).
  destruct g as [h p i|url|]; [| |congruence]; cbn [next] in Hn;
    destruct (continue_requested _ _ _ _ _ _ _ _ Hn) as (Hreq & Hs);
    do 2 eexists; (split; [intros n; reflexivity|]); (split; [exact Hreq|]);
    destruct s; auto; split; auto; apply Hsame; discriminate.
Qed.

(** X6: a loop over the generator sends one request for each snapshot
    it receives, plus one more when it has ended: the start URL first
    and the polling URL from then on for a new generator, the polling
    URL throughout for a suspended one. *)
Theorem one_request_per_round fuel :
  forall g self t ys s g' self' t',
    g <> Exhausted ->
    iterate fuel g self t = (ys, s, g', self', t') ->
    requested t'
    = requested t
      ++ request_urls g self
           (match s with Some _ => S (length ys) | None => length ys end).
Proof.
  induction fuel as [|fuel IH]; intros g self t ys s g' self' t' Hg; cbn [iterate].
  - intros [= <- <- <- <- <-]. destruct g; cbn; now rewrite app_nil_r.
  - destruct (next g self t) as [[[s1 g1] self1] t1] eqn:E.
    destruct (next_requested _ _ _ _ _ _ _ Hg E) as (u & u' & Hurls & Hreq & Hs).
    destruct s1 as [snapshot| |e].
    + destruct Hs as [-> ->].
      destruct (iterate fuel _ self t1) as [[[[ys2 s2] g2] self2] t2] eqn:E2.
      intros [= <- <- <- <- <-].
      assert (Hg' : Suspended u' <> Exhausted) by discriminate.
      rewrite (IH _ _ _ _ _ _ _ _ Hg' E2), Hreq, <- app_assoc.
      cbn [length request_urls app]. destruct s2; rewrite Hurls; reflexivity.
    + intros [= <- <- <- <- <-]. now rewrite Hreq, Hurls.
    + intros [= <- <- <- <- <-]. now rewrite Hreq, Hurls.
Qed.

Lemma iterate_polling_then_terminal pre :
  forall datas r data rest fuel g self log,
    Forall2 polling pre datas ->
    delivers r data -> still_running data = inr false ->
    g <> Exhausted -> (length pre < fuel)%nat ->
    iterate fuel g self (mkTransport (map inr pre ++ inr r :: rest) log)
    = (map Host datas, Some StopIteration, Exhausted,
       set_host (Some (Host data)) self,
       mkTransport rest (log ++ request_urls g self (S (length pre)))).
Proof.
  induction pre as [|r0 pre IH];
    intros datas r data rest fuel g self log HF Hd Hrun Hg Hfuel.
  - inversion HF; subst. destruct fuel as [|fuel]; [cbn in Hfuel; lia|].
    cbn [map app iterate length].
    destruct g as [h p i|url|]; [| |congruence]; cbn [next request_urls repeat];
      now rewrite (continue_terminal _ _ r data).
  - inversion HF as [|? d0 ? datas' Hp HF']; subst.
    destruct fuel as [|fuel]; [cbn in Hfuel; lia|].
    cbn [map app iterate length].
    destruct g as [h p i|url|]; [| |congruence]; cbn [next];
      rewrite (continue_polling _ _ r0 d0) by assumption;
      rewrite (IH datas' r data rest fuel _ self _ HF' Hd Hrun)
        by (discriminate || (cbn in Hfuel; lia));
      cbn [request_urls repeat]; now rewrite <- app_assoc.
Qed.

(** X7: whatever the number of polling replies that come before a
    terminal one, the loop over [analyze] receives the [Host] of each
    polling payload, in the order of the replies, then ends normally; the
    session holds the [Host] of the terminal payload, replacing an
    earlier result if there was one, and the replies after the terminal
    one are not asked for. *)
Theorem analyze_polls_until_terminal h p i self pre datas r data rest log :
  Forall2 polling pre datas ->
  delivers r data -> still_running data = inr false ->
  run h p i self (mkTransport (map inr pre ++ inr r :: rest) log)
  = (map Host datas, Some StopIteration, Exhausted,
     set_host (Some (Host data)) self,
     mkTransport rest
       (log ++ start_url self h p i
            :: repeat (poll_url self h p i) (length pre))).
Proof.
  intros HF Hd Hrun. unfold run, analyze.
  rewrite (iterate_polling_then_terminal pre datas r data rest _ _ self log HF Hd Hrun).
  - reflexivity.
  - discriminate.
  - cbn [script]. rewrite length_app, length_map. lia.
Qed.

(** X9: an exception that [requests.get] itself raises and that is no
    [HTTPError] (a refused connection, a timeout) leaves [next] as it
    is, untranslated; the generator is finished and nothing is stored. *)
Theorem transport_exception_passes_through g self e rest log :
  g <> Exhausted -> (forall r, e <> HTTPError r) ->
  exists t',
    next g self (mkTransport (inl e :: rest) log)
    = (Raise e, Exhausted, self, t').
Proof.
  intros Hg He.
  destruct (next_failing g self (inl e) rest log Hg I) as (e' & t' & Hn & _ & ->).
  exists t'. rewrite Hn. do 3 f_equal.
  destruct e; try reflexivity. now destruct (He response).
Qed.

(** X10: a response that passes [raise_for_status] but whose body is no
    JSON document makes [next] raise the [ValueError] of
    [Response.json]; nothing is stored and the generator is finished. *)
Theorem undecodable_body_raises g self r rest log :
  g <> Exhausted -> raise_for_status r = inr tt -> body r = None ->
  exists msg t',
    next g self (mkTransport (inr r :: rest) log)
    = (Raise (ValueError msg), Exhausted, self, t').
Proof.
  intros Hg Hok Hbody.
  destruct g as [h p i|url|]; [| |congruence]; cbn [next];
    unfold fetch, requests_get, Response_json; cbn; rewrite Hok, Hbody; cbn;
    eauto.
Qed.

Lemma dict_get_error key items e :
  dict_get key items = inl e -> e = KeyError key.
Proof.
  induction items as [|[k v] items IH]; cbn; [congruence|].
  destruct (String.eqb k key); [discriminate|exact IH].
Qed.

Lemma getitem_error data key e :
  getitem data key = inl e ->
  match data with JObj _ => e = KeyError key | _ => e = TypeError end.
Proof.
  destruct data; cbn; try congruence. apply dict_get_error.
Qed.

Lemma still_running_error data e :
  still_running data = inl e -> e = KeyError "status" \/ e = TypeError.
Proof.
  unfold still_running. destruct (getitem data "status") as [e0|v] eqn:Hg.
  - intros [= <-]. apply getitem_error in Hg. destruct data; auto.
  - destruct v; cbn; intros [= <-]; auto.
Qed.

(** X11: a decoded body without a [status] entry makes [next] raise
    [KeyError('status')], and a body that is no JSON object at all a
    [TypeError]; nothing is stored and the generator is finished. *)
Theorem missing_status_raises g self r data rest log e :
  g <> Exhausted -> delivers r data -> getitem data "status" = inl e ->
  match data with
  | JObj _ => e = KeyError "status"
  | _ => e = TypeError
  end
  /\ exists t',
      next g self (mkTransport (inr r :: rest) log)
      = (Raise e, Exhausted, self, t').
Proof.
  intros Hg Hd He. pose proof (getitem_error _ _ _ He) as Hshape.
  split; [exact Hshape|].
  assert (Hh : handler e = e) by (destruct data; subst e; reflexivity).
  destruct g as [h p i|url|]; [| |congruence]; cbn [next];
    rewrite (fetch_delivers _ _ _ _ _ Hd); cbn; unfold still_running;
    rewrite He, Hh; eauto.
Qed.

(** X12: only the two strings keep the driver polling.  A [status] that
    is [null], a boolean or a number completes the run like any other
    terminal status and is stored; a [status] that is a list or an
    object makes the membership test raise [TypeError], and nothing is
    stored. *)
Theorem non_string_status g self r data v rest log :
  g <> Exhausted -> delivers r data ->
  getitem data "status" = inr v -> (forall s, v <> JStr s) ->
  exists t',
    next g self (mkTransport (inr r :: rest) log)
    = match v with
      | JArr _ | JObj _ => (Raise TypeError, Exhausted, self, t')
      | _ => (StopIteration, Exhausted, set_host (Some (Host data)) self, t')
      end.
Proof.
  intros Hg Hd Hv Hns.
  destruct g as [h p i|url|]; [| |congruence]; cbn [next];
    rewrite (fetch_delivers _ _ _ _ _ Hd); cbn; unfold still_running;
    rewrite Hv; destruct v; cbn; eauto; now destruct (Hns s).
Qed.

(** X13: when [next] raises a [ResponseError] in answer to a response,
    the response has a 4xx or 5xx status, [errors.codes] maps that
    status to the class raised, and the message is the response's
    reason phrase; a response with any other status never leads to
    one, whatever [errors.codes] lists. *)
Theorem response_error_origin g self r rest log kind msg g' self' t' :
  next g self (mkTransport (inr r :: rest) log)
  = (Raise (ResponseError kind msg), g', self', t') ->
  400 <= status_code r < 600
  /\ codes !! status_code r = Some kind
  /\ msg = reason r.
Proof.
  assert (Hc : forall url u,
    continue url (fetch u (mkTransport (inr r :: rest) log)) self
    = (Raise (ResponseError kind msg), g', self', t') ->
    400 <= status_code r < 600
    /\ codes !! status_code r = Some kind /\ msg = reason r).
  { intros url u. unfold fetch, requests_get. cbn.
    rewrite raise_for_status_spec.
    destruct ((400 <=? status_code r) && (status_code r <? 600)) eqn:E; cbn.
    - apply andb_prop in E as [E1 E2].
      destruct (codes !! status_code r) as [k|]; [|discriminate].
      intros [= <- <- _ _ _]. repeat split; lia.
    - unfold Response_json. destruct (body r) as [data|]; cbn; [|discriminate].
      destruct (still_running data) as [e|[]] eqn:Hr; try discriminate.
      intros [= He _ _ _]. exfalso.
      destruct (still_running_error _ _ Hr); subst e; discriminate. }
  destruct g as [h p i|url|]; cbn [next]; eauto. discriminate.
Qed.

(** X14: the polling URL is built once, before the first snapshot is
    yielded.  A generator suspended at its first [yield] sends its next
    request to the polling URL of the session as it was when the run
    began, whatever has been assigned to [entrypoint] in the meantime. *)
Theorem polling_url_is_fixed h p i self t snapshot g' self' t' :
  next (analyze h p i) self t = (Yield snapshot, g', self', t') ->
  forall self'' t'',
    requested (snd (next g' self'' t''))
    = requested t'' ++ [poll_url self h p i].
Proof.
  unfold analyze. cbn [next]. intros Hn self'' t''.
  destruct (continue_requested _ _ _ _ _ _ _ _ Hn) as (_ & ->).
  cbn [next].
  destruct (continue (poll_url self h p i) (fetch (poll_url self h p i) t'') self'')
    as [[[s2 g2] self2] t2] eqn:E.
  destruct (continue_requested _ _ _ _ _ _ _ _ E) as (Hreq & _).
  exact Hreq.
Qed.

(** X15: no request of a run carries a parameter name twice, whatever
    the host string is: decoded, the query of the start URL and of the
    polling URL list each of their names once. *)
Theorem parameters_not_repeated self h p i :
  configured self ->
  List.NoDup (map fst (request_params (start_url self h p i)))
  /\ List.NoDup (map fst (request_params (poll_url self h p i))).
Proof.
  intros Hc. rewrite request_params_start, request_params_poll by assumption.
  destruct p, i; cbn; split;
    repeat (constructor; [cbn; intuition discriminate|]); constructor.
Qed.

Lemma rstrip_no_trailing c s :
  forall w : string, rstrip c s <> w +:+ String c EmptyString.
Proof.
  induction s as [|a s IH]; intros w.
  - destruct w; discriminate.
  - cbn [rstrip]. destruct (rstrip c s) as [|b u] eqn:E.
    + destruct (Ascii.eqb a c) eqn:Ea; [destruct w; discriminate|].
      destruct w as [|x w]; push_append.
      * intros [= ->]. now rewrite Ascii.eqb_refl in Ea.
      * intros [= _ Hw]. destruct w; discriminate.
    + destruct w as [|x w]; push_append; [discriminate|].
      intros [= _ Hw]. exact (IH w Hw).
Qed.

(** X16: the path the setter stores never ends in a slash: every
    trailing slash of the path of the URL is stripped, not only the
    last. *)
Theorem stored_path_has_no_trailing_slash value self self' :
  entrypoint_setter value self = (inr tt, self') ->
  forall prefix, __path self' <> prefix +:+ "/".
Proof.
  rewrite entrypoint_setter_spec. destruct (urlsplit value); [discriminate|].
  intros [= <-] prefix. cbn. apply rstrip_no_trailing.
Qed.

(** X17: for a base URL with a scheme and an authority, the getter
    returns the scheme, [://], the authority and the path without its
    trailing slashes, and nothing else. *)
Theorem entrypoint_of_valid_url value self self' :
  valid_base_url value = true ->
  entrypoint_setter value self = (inr tt, self') ->
  exists parts,
    urlsplit value = inr parts
    /\ fst (entrypoint self')
       = inr (scheme parts +:+ "://" +:+ netloc parts
              +:+ rstrip "/" (path parts)).
Proof.
  unfold valid_base_url. rewrite entrypoint_setter_spec.
  destruct (urlsplit value) as [e|parts] eqn:Hsplit; [discriminate|].
  intros [Hs%negb_true_iff Hn%negb_true_iff%String.eqb_neq]%andb_prop [= <-].
  exists parts. split; [reflexivity|].
  destruct (urlsplit_scheme value parts Hsplit) as (head & url & _ & _ & Hafter).
  destruct (split_after_scheme_shape _ _ _ Hafter Hn) as (_ & _ & _ & Hroot & _).
  assert (Hget : forall c : Client,
    fst (entrypoint c)
    = inr (urlunsplit (__scheme c) (__netloc c) (__path c) "" "")) by reflexivity.
  rewrite Hget. cbn [__scheme __netloc __path].
  rewrite (urlunsplit_with_netloc _ _ _ Hn (rstrip_rooted "/" _ Hroot)), Hs.
  reflexivity.
Qed.

End Further.

(** * The theorems at work on the sample session *)

Lemma analyze_dns_in_progress_ready_witness :
  run (H := sample_imports) "www.example.com" false false sample_client
    (mkTransport [inr (ok_response (status_payload "DNS"));
                  inr (ok_response (status_payload "IN_PROGRESS"));
                  inr (ok_response (status_payload "READY"))] [])
  = ([status_payload "DNS"; status_payload "IN_PROGRESS"],
     Some StopIteration, Exhausted,
     @mkClient sample_imports "https" "api.ssllabs.com" "/api/v2"
       (Some (status_payload "READY")),
     mkTransport []
       ["https://api.ssllabs.com/api/v2/analyze?startNew=on&host=www.example.com&all=done";
        "https://api.ssllabs.com/api/v2/analyze?host=www.example.com&all=done";
        "https://api.ssllabs.com/api/v2/analyze?host=www.example.com&all=done"]).
Proof.
  apply (analyze_dns_in_progress_ready (H := sample_imports) sample_client
           "www.example.com" false false
           (ok_response (status_payload "DNS"))
           (ok_response (status_payload "IN_PROGRESS"))
           (ok_response (status_payload "READY"))
           (status_payload "DNS") (status_payload "IN_PROGRESS")
           (status_payload "READY") [] []);
    first [reflexivity | split; reflexivity].
Defined.

Lemma analyze_terminal_at_once_witness :
  run (H := sample_imports) "www.example.com" true false sample_client
    (mkTransport [inr (ok_response (status_payload "ERROR"))] [])
  = ([], Some StopIteration, Exhausted,
     @mkClient sample_imports "https" "api.ssllabs.com" "/api/v2"
       (Some (status_payload "ERROR")),
     mkTransport []
       ["https://api.ssllabs.com/api/v2/analyze?startNew=on&host=www.example.com&all=done&publish=on"]).
Proof.
  apply (analyze_terminal_at_once (H := sample_imports) sample_client
           "www.example.com" true false
           (ok_response (status_payload "ERROR")) (status_payload "ERROR")
           "ERROR" [] []);
    first [reflexivity | split; reflexivity | discriminate].
Defined.

Lemma http_failure_is_mapped_witness :
  HTTPError (mkResponse 429 "Too Many Requests" None)
  = HTTPError (mkResponse 429 "Too Many Requests" None)
  /\ exists t',
      next (H := sample_imports) (Suspended "https://api.ssllabs.com/api/v2/analyze?host=h&all=done")
        sample_client
        (mkTransport [inr (mkResponse 429 "Too Many Requests" None)] [])
      = (Raise (ResponseError "RateLimitError" "Too Many Requests"),
         Exhausted, sample_client, t').
Proof.
  apply (http_failure_is_mapped (H := sample_imports)
           (Suspended "https://api.ssllabs.com/api/v2/analyze?host=h&all=done")
           sample_client (mkResponse 429 "Too Many Requests" None) [] []
           (HTTPError (mkResponse 429 "Too Many Requests" None)));
    [discriminate | reflexivity].
Defined.

(** A status code that is no key of [errors.codes]: the [HTTPError]
    itself reaches the caller. *)
Example unmapped_status_reraised :
  run (H := sample_imports) "h" false false sample_client
    (mkTransport [inr (mkResponse 418 "I'm a teapot" None)] [])
  = ([], Some (Raise (HTTPError (mkResponse 418 "I'm a teapot" None))),
     Exhausted, sample_client,
     mkTransport [] ["https://api.ssllabs.com/api/v2/analyze?startNew=on&host=h&all=done"]).
Proof. reflexivity. Qed.

Lemma failure_commits_nothing_witness :
  exists e t',
    run (H := sample_imports) "h" false false sample_client_with_result
      (mkTransport
         (map inr [ok_response (status_payload "DNS");
                   ok_response (status_payload "IN_PROGRESS")]
          ++ inr (mkResponse 503 "Service Unavailable" None) :: []) [])
    = (map Host [status_payload "DNS"; status_payload "IN_PROGRESS"],
       Some (Raise e), Exhausted, sample_client_with_result, t').
Proof.
  apply (failure_commits_nothing (H := sample_imports) "h" false false
           sample_client_with_result
           [ok_response (status_payload "DNS");
            ok_response (status_payload "IN_PROGRESS")]
           [status_payload "DNS"; status_payload "IN_PROGRESS"]
           (inr (mkResponse 503 "Service Unavailable" None)) [] []).
  - repeat constructor.
  - discriminate.
Defined.

Lemma host_after_terminal_only_witness :
  (exists msg, host (H := sample_imports) sample_client
               = (inl (NoHostError msg), sample_client))
  /\ (exists r data rest,
        script (mkTransport [inr (ok_response (status_payload "READY"))] [])
        = inr r :: rest
        /\ delivers r data /\ still_running data = inr false
        /\ host (H := sample_imports) sample_client_with_result
           = (inr (Host data), sample_client_with_result)).
Proof.
  split.
  - apply (proj1 (host_after_terminal_only (H := sample_imports)) sample_client).
    apply (unfinished_new default_entrypoint). reflexivity.
  - apply (proj2 (host_after_terminal_only (H := sample_imports))
             (Suspended "https://api.ssllabs.com/api/v2/analyze?host=h&all=done")
             sample_client
             (mkTransport [inr (ok_response (status_payload "READY"))] [])
             Exhausted sample_client_with_result
             (mkTransport [] ["https://api.ssllabs.com/api/v2/analyze?host=h&all=done"])).
    + reflexivity.
    + discriminate.
Defined.

Lemma configuration_follows_urlsplit_witness :
  ((exists msg, ValueError "Invalid IPv6 URL" = ValueError msg)
   /\ (forall self : Client (H := sample_imports),
         entrypoint_setter "http://[::1/api" self
         = (inl (ValueError "Invalid IPv6 URL"), self))
   /\ new_Client (H := sample_imports) "http://[::1/api"
      = inl (ValueError "Invalid IPv6 URL"))
  /\
  ((forall self : Client (H := sample_imports),
      entrypoint_setter "" self = (inr tt, mkClient "" "" "" (__host self)))
   /\ new_Client (H := sample_imports) "" = inr (mkClient "" "" "" None)).
Proof.
  split.
  - apply (proj1 (configuration_follows_urlsplit (H := sample_imports)
                    "http://[::1/api") (ValueError "Invalid IPv6 URL")).
    reflexivity.
  - apply (proj2 (configuration_follows_urlsplit (H := sample_imports) "")
             (mkSplitResult "" "" "" "" "")).
    reflexivity.
Defined.

Lemma startNew_on_first_request_only_witness :
  exists first later,
    sample_requests = [] ++ first :: later
    /\ In ("startNew", "on") (request_params first)
    /\ Forall (fun url => forall v, ~ In ("startNew", v) (request_params url))
         later.
Proof.
  apply (startNew_on_first_request_only (H := sample_imports) 3
           "www.example.com" true false sample_client
           (mkTransport sample_script [])
           [status_payload "DNS"; status_payload "IN_PROGRESS"]
           (Some StopIteration) Exhausted sample_client_with_result
           (mkTransport [] sample_requests)).
  - exists default_entrypoint,
      (mkSplitResult "https" "api.ssllabs.com" "/api/v2" "" "").
    repeat split.
  - reflexivity.
Defined.

Lemma request_parameters_witness :
  exists first later,
    sample_requests = [] ++ first :: later
    /\ carries "www.example.com" true false (request_params first)
    /\ incl (request_params first)
         [("startNew", "on"); ("host", "www.example.com"); ("all", "done");
          ("publish", "on"); ("ignoreMismatch", "on")]
    /\ Forall (fun url =>
                 carries "www.example.com" true false (request_params url)
                 /\ incl (request_params url)
                      [("host", "www.example.com"); ("all", "done");
                       ("publish", "on"); ("ignoreMismatch", "on")])
         later.
Proof.
  apply (request_parameters (H := sample_imports) 3
           "www.example.com" true false sample_client
           (mkTransport sample_script [])
           [status_payload "DNS"; status_payload "IN_PROGRESS"]
           (Some StopIteration) Exhausted sample_client_with_result
           (mkTransport [] sample_requests)).
  - exists default_entrypoint,
      (mkSplitResult "https" "api.ssllabs.com" "/api/v2" "" "").
    repeat split.
  - reflexivity.
Defined.

Lemma entrypoint_round_trip_witness :
  exists parts self' url parts',
    urlsplit "HTTPS://api.ssllabs.com:443/api/v2//?x=1#top" = inr parts
    /\ entrypoint_setter (H := sample_imports)
         "HTTPS://api.ssllabs.com:443/api/v2//?x=1#top" sample_client_with_result
       = (inr tt, self')
    /\ entrypoint self' = (inr url, self')
    /\ urlsplit url = inr parts'
    /\ scheme parts' = scheme parts
    /\ netloc parts' = netloc parts
    /\ rstrip "/" (path parts') = rstrip "/" (path parts)
    /\ query parts' = EmptyString
    /\ fragment parts' = EmptyString.
Proof.
  apply (entrypoint_round_trip (H := sample_imports)
           "HTTPS://api.ssllabs.com:443/api/v2//?x=1#top"
           sample_client_with_result).
  reflexivity.
Defined.

(** What the getter returns for that URL. *)
Example entrypoint_normalises :
  fst (entrypoint
         (snd (entrypoint_setter (H := sample_imports)
                 "HTTPS://api.ssllabs.com:443/api/v2//?x=1#top" sample_client)))
  = inr "https://api.ssllabs.com:443/api/v2".
Proof. reflexivity. Qed.

(** Without an authority the reassembled URL need not parse back to the
    stored components: four slashes after the scheme come back as two. *)
Example entrypoint_without_authority :
  urlsplit "http:////path" = inr (mkSplitResult "http" "" "//path" "" "")
  /\ fst (entrypoint
            (snd (entrypoint_setter (H := sample_imports) "http:////path" sample_client)))
     = inr "http://path"
  /\ urlsplit "http://path" = inr (mkSplitResult "http" "path" "" "" "").
Proof. repeat split. Qed.

(** The empty string is no base URL, yet both the constructor and the
    setter take it without raising; nothing fails before the first
    request is sent to the URL built from it. *)
Lemma malformed_url_accepted_at_configuration :
  valid_base_url "" = false
  /\ new_Client (H := sample_imports) "" = inr (mkClient "" "" "" None)
  /\ entrypoint_setter (H := sample_imports) "" sample_client
     = (inr tt, mkClient "" "" "" None)
  /\ start_url (H := sample_imports) (mkClient "" "" "" None) "h" false false
     = "/analyze?startNew=on&host=h&all=done".
Proof. repeat split. Qed.

(** * The further properties at work on the sample session *)

Lemma reference_endpoints_request_witness :
  exists base,
    entrypoint (H := sample_imports) sample_client = (inr base, sample_client)
    /\ requested (snd (@info sample_imports sample_records sample_client
                         (mkTransport [] [])))
       = [] ++ [base +:+ "/info"]
    /\ requested (snd (@statusCodes sample_imports sample_records sample_client
                         (mkTransport [] [])))
       = [] ++ [base +:+ "/getStatusCodes"].
Proof.
  apply (@reference_endpoints_request sample_imports sample_records
           sample_client (mkTransport [] [])).
  exists default_entrypoint,
    (mkSplitResult "https" "api.ssllabs.com" "/api/v2" "" "").
  repeat split.
Defined.

Lemma reference_endpoints_outcome_witness :
  (fst (@info sample_imports sample_records sample_client
          (mkTransport [inr (ok_response (JObj [("engineVersion", JStr "1.24.0")]))] []))
   = inr (JObj [("engineVersion", JStr "1.24.0")]))
  /\ (exists e,
        e = HTTPError (mkResponse 429 "Too Many Requests" None)
        /\ fst (@info sample_imports sample_records sample_client
                  (mkTransport [inr (mkResponse 429 "Too Many Requests" None)] []))
           = inl e
        /\ fst (@statusCodes sample_imports sample_records sample_client
                  (mkTransport [inr (mkResponse 429 "Too Many Requests" None)] []))
           = inl e).
Proof.
  split.
  - apply (proj1 (@reference_endpoints_outcome sample_imports sample_records
                    sample_client
                    (inr (ok_response (JObj [("engineVersion", JStr "1.24.0")])))
                    [] [])
             (ok_response (JObj [("engineVersion", JStr "1.24.0")]))
             (JObj [("engineVersion", JStr "1.24.0")])).
    + reflexivity.
    + split; reflexivity.
  - apply (proj2 (@reference_endpoints_outcome sample_imports sample_records
                    sample_client
                    (inr (mkResponse 429 "Too Many Requests" None)) [] [])).
    discriminate.
Defined.

Lemma analyze_urls_extend_entrypoint_witness :
  exists base,
    entrypoint (H := sample_imports) sample_client = (inr base, sample_client)
    /\ start_url sample_client "www.example.com" true false
       = base +:+ "/analyze" +:+ "?"
         +:+ url_query (start_url sample_client "www.example.com" true false)
    /\ poll_url sample_client "www.example.com" true false
       = base +:+ "/analyze" +:+ "?"
         +:+ url_query (poll_url sample_client "www.example.com" true false).
Proof.
  apply (@analyze_urls_extend_entrypoint sample_imports sample_client
           "www.example.com" true false).
  exists default_entrypoint,
    (mkSplitResult "https" "api.ssllabs.com" "/api/v2" "" "").
  repeat split.
Defined.

Lemma entrypoint_has_no_query_or_fragment_witness :
  contains "?" "https://api.ssllabs.com/api/v2" = false
  /\ contains "#" "https://api.ssllabs.com/api/v2" = false.
Proof.
  apply (@entrypoint_has_no_query_or_fragment sample_imports
           (mkClient "https" "api.ssllabs.com" "/api/v2" None)
           "https://api.ssllabs.com/api/v2").
  - exists "https://api.ssllabs.com/api/v2/?key=1#intro",
      (mkSplitResult "https" "api.ssllabs.com" "/api/v2/" "key=1" "intro").
    repeat split.
  - reflexivity.
Defined.

Lemma entrypoint_set_get_witness :
  entrypoint_setter (H := sample_imports) "https://api.ssllabs.com/api/v2"
    sample_client_with_result
  = (inr tt, sample_client_with_result).
Proof.
  apply (@entrypoint_set_get sample_imports sample_client_with_result
           "https://api.ssllabs.com/api/v2").
  - exists default_entrypoint,
      (mkSplitResult "https" "api.ssllabs.com" "/api/v2" "" "").
    repeat split.
  - discriminate.
  - reflexivity.
Defined.

Lemma one_request_per_round_witness :
  sample_requests
  = [] ++ request_urls (H := sample_imports)
            (analyze "www.example.com" true false) sample_client 3.
Proof.
  apply (@one_request_per_round sample_imports 4
           (analyze "www.example.com" true false) sample_client
           (mkTransport sample_script [])
           [status_payload "DNS"; status_payload "IN_PROGRESS"]
           (Some StopIteration) Exhausted sample_client_with_result
           (mkTransport [] sample_requests)).
  - discriminate.
  - reflexivity.
Defined.

Lemma analyze_polls_until_terminal_witness :
  run (H := sample_imports) "www.example.com" true false sample_client
    (mkTransport
       (map inr [ok_response (status_payload "DNS");
                 ok_response (status_payload "IN_PROGRESS");
                 ok_response (status_payload "IN_PROGRESS")]
        ++ inr (ok_response (status_payload "ERROR"))
           :: [inr (ok_response (status_payload "READY"))]) [])
  = (map Host [status_payload "DNS"; status_payload "IN_PROGRESS";
               status_payload "IN_PROGRESS"],
     Some StopIteration, Exhausted,
     set_host (Some (Host (status_payload "ERROR"))) sample_client,
     mkTransport [inr (ok_response (status_payload "READY"))]
       ([] ++ start_url sample_client "www.example.com" true false
           :: repeat (poll_url sample_client "www.example.com" true false) 3)).
Proof.
  apply (@analyze_polls_until_terminal sample_imports
           "www.example.com" true false sample_client
           [ok_response (status_payload "DNS");
            ok_response (status_payload "IN_PROGRESS");
            ok_response (status_payload "IN_PROGRESS")]
           [status_payload "DNS"; status_payload "IN_PROGRESS";
            status_payload "IN_PROGRESS"]
           (ok_response (status_payload "ERROR")) (status_payload "ERROR")
           [inr (ok_response (status_payload "READY"))] []).
  - repeat constructor.
  - split; reflexivity.
  - reflexivity.
Defined.

Lemma transport_exception_passes_through_witness :
  exists t',
    next (H := sample_imports) (analyze "h" false false) sample_client_with_result
      (mkTransport [inl ConnectionError] [])
    = (Raise ConnectionError, Exhausted, sample_client_with_result, t').
Proof.
  apply (@transport_exception_passes_through sample_imports
           (analyze "h" false false) sample_client_with_result
           ConnectionError [] []); discriminate.
Defined.

Lemma undecodable_body_raises_witness :
  exists msg t',
    next (H := sample_imports) (analyze "h" false false) sample_client
      (mkTransport [inr (mkResponse 200 "OK" None)] [])
    = (Raise (ValueError msg), Exhausted, sample_client, t').
Proof.
  apply (@undecodable_body_raises sample_imports
           (analyze "h" false false) sample_client
           (mkResponse 200 "OK" None) [] []);
    first [discriminate | reflexivity].
Defined.

Lemma missing_status_raises_witness :
  KeyError "status" = KeyError "status"
  /\ exists t',
      next (H := sample_imports) (analyze "h" false false) sample_client
        (mkTransport [inr (ok_response (JObj [("host", JStr "h")]))] [])
      = (Raise (KeyError "status"), Exhausted, sample_client, t').
Proof.
  apply (@missing_status_raises sample_imports
           (analyze "h" false false) sample_client
           (ok_response (JObj [("host", JStr "h")]))
           (JObj [("host", JStr "h")]) [] [] (KeyError "status"));
    first [discriminate | reflexivity | split; reflexivity].
Defined.

Lemma non_string_status_witness :
  exists t',
    next (H := sample_imports) (analyze "h" false false) sample_client
      (mkTransport [inr (ok_response (JObj [("status", JNull)]))] [])
    = (StopIteration, Exhausted,
       set_host (Some (Host (JObj [("status", JNull)]))) sample_client, t').
Proof.
  apply (@non_string_status sample_imports
           (analyze "h" false false) sample_client
           (ok_response (JObj [("status", JNull)]))
           (JObj [("status", JNull)]) JNull [] []);
    first [discriminate | reflexivity | split; reflexivity].
Defined.

Lemma response_error_origin_witness :
  400 <= 429 < 600
  /\ codes (Imports := sample_imports) !! 429 = Some "RateLimitError"
  /\ "Too Many Requests" = "Too Many Requests".
Proof.
  apply (@response_error_origin sample_imports
           (analyze "h" false false) sample_client
           (mkResponse 429 "Too Many Requests" None) [] []
           "RateLimitError" "Too Many Requests" Exhausted sample_client
           (mkTransport [] ["https://api.ssllabs.com/api/v2/analyze?startNew=on&host=h&all=done"])).
  reflexivity.
Defined.

Lemma polling_url_is_fixed_witness :
  requested
    (snd (next (H := sample_imports)
            (Suspended "https://api.ssllabs.com/api/v2/analyze?host=h&all=done")
            (mkClient "http" "localhost:8080" "" None)
            (mkTransport sample_script [])))
  = [] ++ [poll_url sample_client "h" false false].
Proof.
  apply (@polling_url_is_fixed sample_imports "h" false false sample_client
           (mkTransport [inr (ok_response (status_payload "DNS"))] [])
           (status_payload "DNS")
           (Suspended "https://api.ssllabs.com/api/v2/analyze?host=h&all=done")
           sample_client
           (mkTransport [] ["https://api.ssllabs.com/api/v2/analyze?startNew=on&host=h&all=done"])
           eq_refl
           (mkClient "http" "localhost:8080" "" None)
           (mkTransport sample_script [])).
Defined.

Lemma parameters_not_repeated_witness :
  List.NoDup (map fst (request_params
                         (start_url (H := sample_imports) sample_client
                            "a&host=b" true true)))
  /\ List.NoDup (map fst (request_params
                            (poll_url (H := sample_imports) sample_client
                               "a&host=b" true true))).
Proof.
  apply (@parameters_not_repeated sample_imports sample_client "a&host=b" true true).
  exists default_entrypoint,
    (mkSplitResult "https" "api.ssllabs.com" "/api/v2" "" "").
  repeat split.
Defined.

Lemma stored_path_has_no_trailing_slash_witness :
  "/api/v2"%string <> "/api/v2" +:+ "/".
Proof.
  apply (@stored_path_has_no_trailing_slash sample_imports
           "https://api.ssllabs.com/api/v2///" sample_client
           (mkClient "https" "api.ssllabs.com" "/api/v2" None)
           eq_refl "/api/v2"%string).
Defined.

Lemma entrypoint_of_valid_url_witness :
  exists parts,
    urlsplit "HTTPS://api.ssllabs.com:443/api/v2//?x=1#top" = inr parts
    /\ fst (entrypoint (H := sample_imports)
              (mkClient "https" "api.ssllabs.com:443" "/api/v2" None))
       = inr (scheme parts +:+ "://" +:+ netloc parts
              +:+ rstrip "/" (path parts)).
Proof.
  apply (@entrypoint_of_valid_url sample_imports
           "HTTPS://api.ssllabs.com:443/api/v2//?x=1#top" sample_client
           (mkClient "https" "api.ssllabs.com:443" "/api/v2" None));
    reflexivity.
Defined.

Lemma iterate_commits_on_completion_only_witness :
  sample_client_with_result = sample_client_with_result.
Proof.
  apply (@iterate_commits_on_completion_only sample_imports 2
           (analyze "www.example.com" true false) sample_client_with_result
           (mkTransport sample_script [])
           [status_payload "DNS"; status_payload "IN_PROGRESS"] None
           (Suspended "https://api.ssllabs.com/api/v2/analyze?host=www.example.com&all=done&publish=on")
           sample_client_with_result
           (mkTransport [inr (ok_response (status_payload "READY"))]
              ["https://api.ssllabs.com/api/v2/analyze?startNew=on&host=www.example.com&all=done&publish=on";
               "https://api.ssllabs.com/api/v2/analyze?host=www.example.com&all=done&publish=on"])).
  - reflexivity.
  - discriminate.
Defined.
